(** * Vox voice assistant: the session controller of [App.tsx]

    A shallow embedding of the stateful core of the React component [App]:
    the teardown routine [cleanup], the connect sequence, the channel
    callbacks ([onopen], [onmessage], [onerror], [onclose]), the capture
    callback ([onaudioprocess]), the mute toggle and the analysis loop.

    Conventions.
    - React state variables and [useRef] cells are the fields of one record
      [State]; a setter call is a field update.
    - Calls into the browser or the SDK ([stop], [close], [start],
      [cancelAnimationFrame], [sessionPromise.then]) are recorded, in
      program order, as a list of [Call]s returned next to the new state;
      what a callback given to [then] does is a function of how the promise
      settles.
    - Objects (audio contexts, streams, tracks, sessions, source nodes) are
      represented by their identity, a natural number.
    - Times are exact integers counted in output sample frames
      (1/24000 s), the unit in which both [AudioContext.currentTime] and
      [AudioBuffer.duration] advance; the rounding of JavaScript doubles is
      not modelled.
    - An [await] is a suspension point: the code before it and the code after
      it are separate handlers, and the awaited value is supplied by the
      environment when the second one runs.
    - [console.log]/[console.error] and the JSX tree are not modelled, apart
      from the two guards the JSX puts on the controls. *)

From Stdlib Require Import List ZArith QArith Bool Ascii String Lia Arith.
Import ListNotations.
Local Open Scope Z_scope.

Set Implicit Arguments.

(** ** Data *)

(** [types.ts]: [export type ConnectionStatus = ...]. *)
Inductive ConnectionStatus : Type :=
| disconnected
| connecting
| connected
| error.

Definition ConnectionStatus_eqb (a b : ConnectionStatus) : bool :=
  match a, b with
  | disconnected, disconnected => true
  | connecting, connecting => true
  | connected, connected => true
  | error, error => true
  | _, _ => false
  end.

Definition AudioContext := nat.
Definition MediaStreamTrack := nat.
Definition Session := nat.
Definition AudioBufferSourceNode := nat.
Definition FrameHandle := nat.
Definition Time := Z.

(** A [MediaStream], seen through [getTracks()]. *)
Record MediaStream : Type := { getTracks : list MediaStreamTrack }.

(** A decoded [AudioBuffer]; [duration] is its length over the sample rate,
    that is, its length when time is counted in frames. *)
Record AudioBuffer : Type := { frames : N }.

Definition duration (b : AudioBuffer) : Time := Z.of_N (frames b).

(** The block of input samples read by [getChannelData(0)]. *)
Definition Float32Array := list Q.

(** The SDK's media payload, [{ data, mimeType }]: base64 text and its type. *)
Record Blob : Type := { data : string; mimeType : string }.

(** Calls into the browser and the SDK, as the handlers issue them.
    [SessionPromiseThen media] is the registration
    [sessionPromise.then(session => session.sendRealtimeInput({ media }))];
    [SendRealtimeInput media] is the send itself, which no handler issues:
    the registered callback issues it, if and when the promise is
    fulfilled. *)
Inductive Call : Type :=
| CancelAnimationFrame (h : FrameHandle)
| SessionClose (sess : Session)
| TrackStop (t : MediaStreamTrack)
| SourceStop (n : AudioBufferSourceNode)
| SourceStart (n : AudioBufferSourceNode) (when : Time)
| ContextClose (ctx : AudioContext)
| SendRealtimeInput (media : Blob)
| SessionPromiseThen (media : Blob).

(** The component's mutable state: the [useState] variables first, then the
    [useRef] cells, under the names they have in [App.tsx].
    [sourcesRef] is a JavaScript [Set]: a duplicate-free list in insertion
    order. [created] counts the source nodes made so far by
    [createBufferSource], which gives each new node a fresh identity.
    [analysisIsSpeaking] is the value of [isSpeaking] closed over by the
    running analysis loop (read once, when [connect] was invoked). *)
Record State : Type := mkState {
  status : ConnectionStatus;
  errorMessage : option string;
  isSpeaking : bool;
  intensity : Q;
  isMuted : bool;
  inputAudioCtxRef : option AudioContext;
  outputAudioCtxRef : option AudioContext;
  streamRef : option MediaStream;
  sourcesRef : list AudioBufferSourceNode;
  nextStartTimeRef : Time;
  sessionRef : option Session;
  isMutedRef : bool;
  rafRef : option FrameHandle;
  created : nat;
  analysisIsSpeaking : bool
}.

(** The values given to [useState] and [useRef] when the component mounts. *)
Definition initial : State :=
  {| status := disconnected;
     errorMessage := None;
     isSpeaking := false;
     intensity := 0%Q;
     isMuted := false;
     inputAudioCtxRef := None;
     outputAudioCtxRef := None;
     streamRef := None;
     sourcesRef := [];
     nextStartTimeRef := 0;
     sessionRef := None;
     isMutedRef := false;
     rafRef := None;
     created := 0%nat;
     analysisIsSpeaking := false |}.

(** Field updates. *)
Definition setStatus (v : ConnectionStatus) (s : State) : State :=
  mkState v (errorMessage s) (isSpeaking s) (intensity s) (isMuted s)
    (inputAudioCtxRef s) (outputAudioCtxRef s) (streamRef s) (sourcesRef s)
    (nextStartTimeRef s) (sessionRef s) (isMutedRef s) (rafRef s) (created s)
    (analysisIsSpeaking s).

Definition setErrorMessage (v : option string) (s : State) : State :=
  mkState (status s) v (isSpeaking s) (intensity s) (isMuted s)
    (inputAudioCtxRef s) (outputAudioCtxRef s) (streamRef s) (sourcesRef s)
    (nextStartTimeRef s) (sessionRef s) (isMutedRef s) (rafRef s) (created s)
    (analysisIsSpeaking s).

Definition setIsSpeaking (v : bool) (s : State) : State :=
  mkState (status s) (errorMessage s) v (intensity s) (isMuted s)
    (inputAudioCtxRef s) (outputAudioCtxRef s) (streamRef s) (sourcesRef s)
    (nextStartTimeRef s) (sessionRef s) (isMutedRef s) (rafRef s) (created s)
    (analysisIsSpeaking s).

Definition setIntensity (v : Q) (s : State) : State :=
  mkState (status s) (errorMessage s) (isSpeaking s) v (isMuted s)
    (inputAudioCtxRef s) (outputAudioCtxRef s) (streamRef s) (sourcesRef s)
    (nextStartTimeRef s) (sessionRef s) (isMutedRef s) (rafRef s) (created s)
    (analysisIsSpeaking s).

Definition setIsMuted (v : bool) (s : State) : State :=
  mkState (status s) (errorMessage s) (isSpeaking s) (intensity s) v
    (inputAudioCtxRef s) (outputAudioCtxRef s) (streamRef s) (sourcesRef s)
    (nextStartTimeRef s) (sessionRef s) (isMutedRef s) (rafRef s) (created s)
    (analysisIsSpeaking s).

Definition set_inputAudioCtxRef (v : option AudioContext) (s : State) : State :=
  mkState (status s) (errorMessage s) (isSpeaking s) (intensity s) (isMuted s)
    v (outputAudioCtxRef s) (streamRef s) (sourcesRef s)
    (nextStartTimeRef s) (sessionRef s) (isMutedRef s) (rafRef s) (created s)
    (analysisIsSpeaking s).

Definition set_outputAudioCtxRef (v : option AudioContext) (s : State) : State :=
  mkState (status s) (errorMessage s) (isSpeaking s) (intensity s) (isMuted s)
    (inputAudioCtxRef s) v (streamRef s) (sourcesRef s)
    (nextStartTimeRef s) (sessionRef s) (isMutedRef s) (rafRef s) (created s)
    (analysisIsSpeaking s).

Definition set_streamRef (v : option MediaStream) (s : State) : State :=
  mkState (status s) (errorMessage s) (isSpeaking s) (intensity s) (isMuted s)
    (inputAudioCtxRef s) (outputAudioCtxRef s) v (sourcesRef s)
    (nextStartTimeRef s) (sessionRef s) (isMutedRef s) (rafRef s) (created s)
    (analysisIsSpeaking s).

Definition set_sourcesRef (v : list AudioBufferSourceNode) (s : State) : State :=
  mkState (status s) (errorMessage s) (isSpeaking s) (intensity s) (isMuted s)
    (inputAudioCtxRef s) (outputAudioCtxRef s) (streamRef s) v
    (nextStartTimeRef s) (sessionRef s) (isMutedRef s) (rafRef s) (created s)
    (analysisIsSpeaking s).

Definition set_nextStartTimeRef (v : Time) (s : State) : State :=
  mkState (status s) (errorMessage s) (isSpeaking s) (intensity s) (isMuted s)
    (inputAudioCtxRef s) (outputAudioCtxRef s) (streamRef s) (sourcesRef s)
    v (sessionRef s) (isMutedRef s) (rafRef s) (created s)
    (analysisIsSpeaking s).

Definition set_sessionRef (v : option Session) (s : State) : State :=
  mkState (status s) (errorMessage s) (isSpeaking s) (intensity s) (isMuted s)
    (inputAudioCtxRef s) (outputAudioCtxRef s) (streamRef s) (sourcesRef s)
    (nextStartTimeRef s) v (isMutedRef s) (rafRef s) (created s)
    (analysisIsSpeaking s).

Definition set_isMutedRef (v : bool) (s : State) : State :=
  mkState (status s) (errorMessage s) (isSpeaking s) (intensity s) (isMuted s)
    (inputAudioCtxRef s) (outputAudioCtxRef s) (streamRef s) (sourcesRef s)
    (nextStartTimeRef s) (sessionRef s) v (rafRef s) (created s)
    (analysisIsSpeaking s).

Definition set_rafRef (v : option FrameHandle) (s : State) : State :=
  mkState (status s) (errorMessage s) (isSpeaking s) (intensity s) (isMuted s)
    (inputAudioCtxRef s) (outputAudioCtxRef s) (streamRef s) (sourcesRef s)
    (nextStartTimeRef s) (sessionRef s) (isMutedRef s) v (created s)
    (analysisIsSpeaking s).

Definition set_created (v : nat) (s : State) : State :=
  mkState (status s) (errorMessage s) (isSpeaking s) (intensity s) (isMuted s)
    (inputAudioCtxRef s) (outputAudioCtxRef s) (streamRef s) (sourcesRef s)
    (nextStartTimeRef s) (sessionRef s) (isMutedRef s) (rafRef s) v
    (analysisIsSpeaking s).

Definition set_analysisIsSpeaking (v : bool) (s : State) : State :=
  mkState (status s) (errorMessage s) (isSpeaking s) (intensity s) (isMuted s)
    (inputAudioCtxRef s) (outputAudioCtxRef s) (streamRef s) (sourcesRef s)
    (nextStartTimeRef s) (sessionRef s) (isMutedRef s) (rafRef s) (created s)
    v.

(** ** Handlers as state transformers that log their calls *)

(** A handler maps the state before to its result, the state after and the
    calls it issued. *)
Definition Act (A : Type) : Type := State -> A * State * list Call.

Definition ret {A : Type} (a : A) : Act A := fun s => (a, s, []).

Definition bind {A B : Type} (m : Act A) (k : A -> Act B) : Act B :=
  fun s =>
    let r1 := m s in
    let r2 := k (fst (fst r1)) (snd (fst r1)) in
    (fst (fst r2), snd (fst r2), snd r1 ++ snd r2).

Definition read {A : Type} (field : State -> A) : Act A :=
  fun s => (field s, s, []).

Definition write (upd : State -> State) : Act unit :=
  fun s => (tt, upd s, []).

Definition call (c : Call) : Act unit :=
  fun s => (tt, s, [c]).

Definition when (b : bool) (m : Act unit) : Act unit :=
  if b then m else ret tt.

Fixpoint forEach {A : Type} (l : list A) (f : A -> Act unit) : Act unit :=
  match l with
  | [] => ret tt
  | x :: l' => bind (f x) (fun _ => forEach l' f)
  end.

Definition exec {A : Type} (m : Act A) (s : State) : State := snd (fst (m s)).
Definition calls {A : Type} (m : Act A) (s : State) : list Call := snd (m s).
Definition result {A : Type} (m : Act A) (s : State) : A := fst (fst (m s)).

Declare Scope act_scope.
Delimit Scope act_scope with act.
Notation "x <- m ;; k" := (bind m (fun x => k))
  (at level 61, m at next level, right associativity) : act_scope.
Notation "m ;; k" := (bind m (fun _ => k))
  (at level 61, right associativity) : act_scope.
Local Open Scope act_scope.

(** ** Teardown: [cleanup] (App.tsx, lines 56-79) *)

(** [if (rafRef.current)] on a [number | null]: null and 0 are falsy. *)
Definition truthy_handle (o : option FrameHandle) : bool :=
  match o with
  | Some (S _) => true
  | _ => false
  end.

(** [sessionRef.current.close?.()] is taken to find the [close] method that
    the SDK's sessions have. *)
Definition cleanup : Act unit :=
  raf <- read rafRef ;;
  match raf with
  | Some h => when (truthy_handle raf) (call (CancelAnimationFrame h))
  | None => ret tt
  end ;;
  sess <- read sessionRef ;;
  match sess with
  | Some x => call (SessionClose x) ;; write (set_sessionRef None)
  | None => ret tt
  end ;;
  stream <- read streamRef ;;
  match stream with
  | Some m =>
      forEach (getTracks m) (fun track => call (TrackStop track)) ;;
      write (set_streamRef None)
  | None => ret tt
  end ;;
  sources <- read sourcesRef ;;
  forEach sources (fun source => call (SourceStop source)) ;;
  write (set_sourcesRef []) ;;
  inCtx <- read inputAudioCtxRef ;;
  match inCtx with
  | Some c => call (ContextClose c)
  | None => ret tt
  end ;;
  outCtx <- read outputAudioCtxRef ;;
  match outCtx with
  | Some c => call (ContextClose c)
  | None => ret tt
  end ;;
  write (set_inputAudioCtxRef None) ;;
  write (set_outputAudioCtxRef None) ;;
  write (setStatus disconnected) ;;
  write (setIsSpeaking false) ;;
  write (setIntensity 0%Q) ;;
  write (setIsMuted false) ;;
  write (set_isMutedRef false).

(** Closed forms of one teardown: the calls it issues, in order, and the
    state it leaves. [cleanup_run] below proves them equal to the run of
    [cleanup]. *)
Definition opt_calls {A : Type} (f : A -> list Call) (o : option A)
  : list Call :=
  match o with
  | Some x => f x
  | None => []
  end.

Definition cleanup_calls (s : State) : list Call :=
  (if truthy_handle (rafRef s)
   then opt_calls (fun h => [CancelAnimationFrame h]) (rafRef s) else [])
  ++ opt_calls (fun x => [SessionClose x]) (sessionRef s)
  ++ opt_calls (fun m => map TrackStop (getTracks m)) (streamRef s)
  ++ map SourceStop (sourcesRef s)
  ++ opt_calls (fun c => [ContextClose c]) (inputAudioCtxRef s)
  ++ opt_calls (fun c => [ContextClose c]) (outputAudioCtxRef s).

Definition cleanup_state (s : State) : State :=
  mkState disconnected (errorMessage s) false 0%Q false None None None []
    (nextStartTimeRef s) None false (rafRef s) (created s)
    (analysisIsSpeaking s).

(** ** The analysis loop: [startAnalysis] and [update] (lines 81-103) *)

(** [analyser.frequencyBinCount], half of [fftSize = 64]. *)
Definition bufferLength : nat := 32.

(** One run of [update]. [dataArray] is what [getByteFrequencyData] wrote and
    [handle] what [requestAnimationFrame] returned. [isSpeaking] is read from
    the closure, [isMutedRef] from the ref cell. *)
Definition update (dataArray : list Z) (handle : FrameHandle) : Act unit :=
  let sum := fold_left (fun acc i => acc + nth i dataArray 0)
                       (seq 0 bufferLength) 0 in
  let average := (inject_Z sum / inject_Z (Z.of_nat bufferLength))%Q in
  muted <- read isMutedRef ;;
  speaking <- read analysisIsSpeaking ;;
  let displayedIntensity :=
    if muted then (if speaking then average / 512 else 0)%Q
    else (average / 255)%Q in
  write (setIntensity displayedIntensity) ;;
  write (set_rafRef (Some handle)).

(** ** The session: [connect] and its callbacks (lines 105-206) *)

(** A thrown value, seen through [err.message]. *)
Record Err : Type := { message : option string }.

(** [err.message || 'Failed to start the conversation.']: [undefined] and the
    empty string are falsy. *)
Definition message_or_default (err : Err) : string :=
  match message err with
  | Some m => if String.eqb m EmptyString
              then "Failed to start the conversation."%string else m
  | None => "Failed to start the conversation."%string
  end.

(** The [catch] block of [connect]. *)
Definition connect_catch (err : Err) : Act unit :=
  write (setErrorMessage (Some (message_or_default err))) ;;
  cleanup.

(** The [TypeError] raised by a method call on [null]. *)
Definition TypeError_null : Err :=
  {| message := Some "Cannot read properties of null"%string |}.

(** [connect] up to [await getUserMedia]; [inCtx] and [outCtx] are the two
    contexts that [new AudioContext] returns. The closures created from here
    on see the [isSpeaking] of the render that made this [connect]. *)
Definition connect_begin (inCtx outCtx : AudioContext) : Act unit :=
  write (setStatus connecting) ;;
  write (setErrorMessage None) ;;
  speaking <- read isSpeaking ;;
  write (set_analysisIsSpeaking speaking) ;;
  write (set_inputAudioCtxRef (Some inCtx)) ;;
  write (set_outputAudioCtxRef (Some outCtx)).

(** [connect] from the microphone stream to [await sessionPromise]:
    [startAnalysis] dereferences [inputAudioCtxRef.current], which throws
    into the [catch] block when a teardown nulled it meanwhile. *)
Definition connect_stream (stream : MediaStream) (dataArray : list Z)
    (handle : FrameHandle) : Act unit :=
  write (set_streamRef (Some stream)) ;;
  inCtx <- read inputAudioCtxRef ;;
  match inCtx with
  | Some _ => update dataArray handle
  | None => connect_catch TypeError_null
  end.

(** [sessionRef.current = await sessionPromise]. *)
Definition connect_session (sess : Session) : Act unit :=
  write (set_sessionRef (Some sess)).

Definition onopen : Act unit :=
  write (setStatus connected).

Definition onerror : Act unit :=
  write (setErrorMessage
           (Some "A connection error occurred. Please try again."%string)) ;;
  cleanup.

Definition onclose : Act unit := cleanup.

(** ** Playback: [onmessage] (lines 152-187) *)

(** A [LiveServerMessage], seen through the two paths the handler reads:
    [serverContent?.modelTurn?.parts?.[0]?.inlineData?.data] and
    [serverContent?.interrupted]. *)
Record LiveServerMessage : Type := {
  audioData : option string;
  interrupted : bool
}.

(** [if (audioData)]: [undefined] and the empty string are falsy. *)
Definition has_audio (m : LiveServerMessage) : bool :=
  match audioData m with
  | Some d => negb (String.eqb d EmptyString)
  | None => false
  end.

(** [Set.prototype.add], [delete] on the insertion-ordered list. *)
Definition Set_has (x : nat) (l : list nat) : bool := existsb (Nat.eqb x) l.

Definition Set_add (x : nat) (l : list nat) : list nat :=
  if Set_has x l then l else l ++ [x].

Definition Set_delete (x : nat) (l : list nat) : list nat :=
  filter (fun y => negb (Nat.eqb x y)) l.

(** The [if (message.serverContent?.interrupted)] block. *)
Definition onmessage_interrupted (m : LiveServerMessage) : Act unit :=
  when (interrupted m)
    (sources <- read sourcesRef ;;
     forEach sources (fun s => call (SourceStop s)) ;;
     write (set_sourcesRef []) ;;
     write (set_nextStartTimeRef 0) ;;
     write (setIsSpeaking false)).

(** Where a run of [onmessage] stands when it yields. *)
Inductive Progress : Type :=
| Finished
| Threw
| AwaitingDecode (ctx : AudioContext).

(** [onmessage] up to [await decodeAudioData]; [currentTime] is the reading
    of [ctx.currentTime]. With no output context the read of
    [ctx.currentTime] throws. *)
Definition onmessage_begin (m : LiveServerMessage) (currentTime : Time)
  : Act Progress :=
  if has_audio m then
    write (setIsSpeaking true) ;;
    ctx <- read outputAudioCtxRef ;;
    match ctx with
    | Some c =>
        next <- read nextStartTimeRef ;;
        write (set_nextStartTimeRef (Z.max next currentTime)) ;;
        ret (AwaitingDecode c)
    | None => ret Threw
    end
  else
    onmessage_interrupted m ;;
    ret Finished.

(** The ['ended'] listener of a source node. *)
Definition onended (source : AudioBufferSourceNode) : Act unit :=
  sources <- read sourcesRef ;;
  write (set_sourcesRef (Set_delete source sources)) ;;
  remaining <- read sourcesRef ;;
  when (Nat.eqb (List.length remaining) 0) (write (setIsSpeaking false)).

(** [onmessage] from the decoded buffer on: a new source node is created,
    started at the cursor, the cursor advanced and the node recorded. *)
Definition onmessage_decoded (m : LiveServerMessage) (audioBuffer : AudioBuffer)
  : Act unit :=
  source <- read created ;;
  write (set_created (S source)) ;;
  next <- read nextStartTimeRef ;;
  call (SourceStart source next) ;;
  write (set_nextStartTimeRef (next + duration audioBuffer)) ;;
  sources <- read sourcesRef ;;
  write (set_sourcesRef (Set_add source sources)) ;;
  onmessage_interrupted m.

(** A whole run of [onmessage] whose decode resolves before any other event
    is handled. *)
Definition onmessage (m : LiveServerMessage) (currentTime : Time)
    (audioBuffer : AudioBuffer) : Act unit :=
  p <- onmessage_begin m currentTime ;;
  match p with
  | AwaitingDecode _ => onmessage_decoded m audioBuffer
  | Finished | Threw => ret tt
  end.

(** ** Controls (lines 208-220 and the JSX guards) *)

Definition toggleConnection (inCtx outCtx : AudioContext) : Act unit :=
  st <- read status ;;
  if ConnectionStatus_eqb st connected then cleanup
  else connect_begin inCtx outCtx.

Definition toggleMute : Act unit :=
  muted <- read isMuted ;;
  let newState := negb muted in
  write (setIsMuted newState) ;;
  write (set_isMutedRef newState).

(** The main button carries [disabled={status === 'connecting'}]. *)
Definition click_connection (inCtx outCtx : AudioContext) : Act unit :=
  st <- read status ;;
  if ConnectionStatus_eqb st connecting then ret tt
  else toggleConnection inCtx outCtx.

(** The mute button is rendered under [status === 'connected' && ...]. *)
Definition click_mute : Act unit :=
  st <- read status ;;
  if ConnectionStatus_eqb st connected then toggleMute else ret tt.

(** ** Capture and the event loop *)

Section App.

(** [createPcmBlob] of [services/audioUtils], which [App.tsx] imports. *)
Variable createPcmBlob : Float32Array -> Blob.

(** [scriptProcessor.onaudioprocess] (lines 140-147). The handler does not
    send: it registers, on [sessionPromise], a callback that will send the
    converted block. *)
Definition onaudioprocess (inputData : Float32Array) : Act unit :=
  muted <- read isMutedRef ;;
  if muted then ret tt
  else
    let pcmBlob := createPcmBlob inputData in
    call (SessionPromiseThen pcmBlob).

(** What the event loop can deliver to the component. *)
Inductive Event : Type :=
| ClickConnection (inCtx outCtx : AudioContext)
| MicrophoneGranted (stream : MediaStream) (dataArray : list Z)
                    (handle : FrameHandle)
| SessionResolved (sess : Session)
| ConnectFailed (err : Err)
| ChannelOpen
| ChannelMessage (m : LiveServerMessage) (currentTime : Time)
| ChunkDecoded (m : LiveServerMessage) (audioBuffer : AudioBuffer)
| SourceEnded (source : AudioBufferSourceNode)
| ChannelError
| ChannelClose
| ClickMute
| AudioProcess (inputData : Float32Array)
| AnimationFrame (dataArray : list Z) (handle : FrameHandle)
| Unmount.

Definition step (e : Event) : Act unit :=
  match e with
  | ClickConnection inCtx outCtx => click_connection inCtx outCtx
  | MicrophoneGranted stream dataArray handle =>
      connect_stream stream dataArray handle
  | SessionResolved sess => connect_session sess
  | ConnectFailed err => connect_catch err
  | ChannelOpen => onopen
  | ChannelMessage m currentTime => onmessage_begin m currentTime ;; ret tt
  | ChunkDecoded m audioBuffer => onmessage_decoded m audioBuffer
  | SourceEnded source => onended source
  | ChannelError => onerror
  | ChannelClose => onclose
  | ClickMute => click_mute
  | AudioProcess inputData => onaudioprocess inputData
  | AnimationFrame dataArray handle => update dataArray handle
  | Unmount => cleanup
  end.

(** Handling a sequence of events, one after the other. *)
Definition run (evs : list Event) : Act unit := forEach evs step.

End App.

(** ** Vocabulary of the properties *)

(** The disconnected baseline: the mutable state as it is when the component
    mounts, before any session. *)
Definition baseline (s : State) : Prop :=
  status s = disconnected /\ isSpeaking s = false /\ intensity s = 0%Q /\
  isMuted s = false /\ isMutedRef s = false /\ sourcesRef s = [] /\
  nextStartTimeRef s = 0 /\ sessionRef s = None /\ streamRef s = None /\
  inputAudioCtxRef s = None /\ outputAudioCtxRef s = None.

(** The baseline without the start-time cursor. *)
Definition released (s : State) : Prop :=
  status s = disconnected /\ isSpeaking s = false /\ intensity s = 0%Q /\
  isMuted s = false /\ isMutedRef s = false /\ sourcesRef s = [] /\
  sessionRef s = None /\ streamRef s = None /\
  inputAudioCtxRef s = None /\ outputAudioCtxRef s = None.

(** [{errorMessage && (...)}]: the message is on screen when it is a
    non-empty string. *)
Definition error_shown (s : State) : bool :=
  match errorMessage s with
  | Some m => negb (String.eqb m EmptyString)
  | None => false
  end.

(** The start times passed to [source.start], in call order. *)
Definition scheduled (cs : list Call) : list Time :=
  flat_map (fun c => match c with SourceStart _ t => [t] | _ => [] end) cs.

(** The nodes passed to [stop], in call order. *)
Definition stopped (cs : list Call) : list AudioBufferSourceNode :=
  flat_map (fun c => match c with SourceStop n => [n] | _ => [] end) cs.

(** The payloads passed to [sendRealtimeInput], in call order. *)
Definition sent (cs : list Call) : list Blob :=
  flat_map (fun c => match c with SendRealtimeInput b => [b] | _ => [] end) cs.





(** A message together with the clock reading at its arrival and the buffer
    its payload decodes to. *)
Record Delivery : Type := {
  msg : LiveServerMessage;
  arrival : Time;
  decoded : AudioBuffer
}.

Definition deliver (d : Delivery) : Act unit :=
  onmessage (msg d) (arrival d) (decoded d).

Definition deliver_all (ds : list Delivery) : Act unit := forEach ds deliver.

(** An audio chunk that carries no interruption signal. *)
Definition audio_only (d : Delivery) : Prop :=
  has_audio (msg d) = true /\ interrupted (msg d) = false.

(** The start times that the cursor rule yields: each delivery starts at
    the later of the cursor and the clock, and moves the cursor to the end
    of its buffer. *)
Fixpoint schedule (cursor : Time) (ds : list Delivery) : list Time :=
  match ds with
  | [] => []
  | d :: ds' =>
      let t := Z.max cursor (arrival d) in
      t :: schedule (t + duration (decoded d)) ds'
  end.

(** The gapless property as the specification words it: each start is the
    previous start plus the previous duration. *)
Definition back_to_back (ds : list Delivery) (ts : list Time) : Prop :=
  forall i d1 t1 t2,
    nth_error ds i = Some d1 ->
    nth_error ts i = Some t1 ->
    nth_error ts (S i) = Some t2 ->
    t2 = t1 + duration (decoded d1).

(** The calls that cancel an animation frame. *)
Definition is_cancel (c : Call) : bool :=
  match c with
  | CancelAnimationFrame _ => true
  | _ => false
  end.

(** Idempotence of teardown as the specification words it. *)
Definition teardown_idempotent_as_stated : Prop :=
  forall s : State,
    exec cleanup (exec cleanup s) = exec cleanup s /\
    calls cleanup (exec cleanup s) = [] /\
    baseline (exec cleanup s).

(** The three failure paths of a session: the [catch] block of [connect],
    the [onerror] callback and the [onclose] callback. *)
Inductive Failure : Type :=
| SetupFailure (err : Err)
| ChannelFailure
| ChannelClosed.

Definition on_failure (f : Failure) : Act unit :=
  match f with
  | SetupFailure err => connect_catch err
  | ChannelFailure => onerror
  | ChannelClosed => onclose
  end.




Section Traces.

Variable createPcmBlob : Float32Array -> Blob.


(** Whether [n] is in the active set before a step and no longer after. *)
Definition leaves (n : AudioBufferSourceNode) (s s' : State) : bool :=
  Set_has n (sourcesRef s) && negb (Set_has n (sourcesRef s')).

(** How many times [n] leaves the active set along a run. *)
Fixpoint removals (n : AudioBufferSourceNode) (s : State) (evs : list Event)
  : nat :=
  match evs with
  | [] => 0
  | e :: evs' =>
      let s' := exec (step createPcmBlob e) s in
      ((if leaves n s s' then 1 else 0) + removals n s' evs')%nat
  end.


(** The speaking flag as the specification words it: it goes from on to off
    in exactly the steps in which the active set becomes empty. *)
Definition speaking_clears_exactly_when_set_empties : Prop :=
  forall (evs : list Event) (e : Event),
    (isSpeaking (exec (run createPcmBlob evs) initial) = true /\
     isSpeaking (exec (step createPcmBlob e)
                      (exec (run createPcmBlob evs) initial)) = false)
    <->
    (sourcesRef (exec (run createPcmBlob evs) initial) <> [] /\
     sourcesRef (exec (step createPcmBlob e)
                      (exec (run createPcmBlob evs) initial)) = []).

End Traces.

(** Every node in the active set was made by [createBufferSource]. *)
Definition fresh_ids (s : State) : Prop :=
  forall n, Set_has n (sourcesRef s) = true -> (n < created s)%nat.


(** The events that run [cleanup]: channel error and close, unmount, the
    [catch] block of [connect] (entered too when [startAnalysis] finds no
    input context), and a click on the main button while connected. *)
Definition tears_down (s : State) (e : Event) : Prop :=
  match e with
  | ChannelError | ChannelClose | Unmount | ConnectFailed _ => True
  | ClickConnection _ _ => status s = connected
  | MicrophoneGranted _ _ _ => inputAudioCtxRef s = None
  | _ => False
  end.

(** The events that take nodes out of the active set: the end of [n]
    itself, a message that carries the interruption signal, a teardown. *)
Definition ends_playback (n : AudioBufferSourceNode) (s : State) (e : Event)
  : Prop :=
  match e with
  | SourceEnded n' => n' = n
  | ChannelMessage m _ => has_audio m = false /\ interrupted m = true
  | ChunkDecoded m _ => interrupted m = true
  | _ => tears_down s e
  end.

(** The events whose handlers call [setIsSpeaking(false)]: the end of a
    node, a message that carries the interruption signal (at once when it
    has no audio, after the decode when it has), a teardown. *)
Definition may_clear_speaking (s : State) (e : Event) : Prop :=
  match e with
  | SourceEnded _ => True
  | ChannelMessage m _ => has_audio m = false /\ interrupted m = true
  | ChunkDecoded m _ => interrupted m = true
  | _ => tears_down s e
  end.

(** The events through which the component reports a failure to the user. *)
Definition reports_failure (s : State) (e : Event) : Prop :=
  match e with
  | ChannelError | ConnectFailed _ => True
  | MicrophoneGranted _ _ _ => inputAudioCtxRef s = None
  | _ => False
  end.

(** A click on the main button that starts a new connect attempt. *)
Definition starts_connect (s : State) (e : Event) : Prop :=
  match e with
  | ClickConnection _ _ => status s <> connected /\ status s <> connecting
  | _ => False
  end.

(** ** Sample conversion on the capture path *)

(** Modelled from the spec: the per-sample conversion inside
    [createPcmBlob], whose file [services/audioUtils] is not among the
    sources. Section 4.1 asks for 16-bit signed linear PCM and that the
    conversion "clamp sample values to the 16-bit signed range before
    truncation". The sample is scaled to full scale, clamped to
    [-32768, 32767], truncated toward zero and stored in an [Int16Array]
    element, which keeps the low 16 bits in two's complement. Samples are
    rationals: NaN and the infinities are not represented. *)
Definition clamp16 (v : Q) : Q :=
  if Qle_bool v (-32768) then (-32768)%Q
  else if Qle_bool 32767 v then 32767%Q
  else v.

(** Modelled from the spec: "truncation", the rounding toward zero that a
    store into an integer typed array applies to a fractional value. *)
Definition truncate (v : Q) : Z := Z.quot (Qnum v) (Z.pos (Qden v)).

(** Modelled from the spec: the "wraparound" of a 16-bit signed element,
    which keeps an integer modulo 2^16 in [-32768, 32767]. *)
Definition Int16_store (z : Z) : Z := (z + 32768) mod 65536 - 32768.

(** Modelled from the spec: the conversion of one sample, clamp before
    truncation, for a positive full-scale factor the spec leaves open. *)
Definition sample_to_int16 (fullScale : positive) (sample : Q) : Z :=
  Int16_store (truncate (clamp16 (sample * inject_Z (Z.pos fullScale)))).

(** Modelled from the spec: the same conversion with the clamp left out,
    the "wraparound distortion" the spec warns of. *)
Definition sample_to_int16_unclamped (fullScale : positive) (sample : Q) : Z :=
  Int16_store (truncate (sample * inject_Z (Z.pos fullScale))).

(** ** Concrete runs used in the examples *)

(** A stand-in for [createPcmBlob] in closed examples: one base64 letter per
    input sample. *)
Definition example_createPcmBlob (inputData : Float32Array) : Blob :=
  {| data := string_of_list_ascii (map (fun _ => "A"%char) inputData);
     mimeType := "audio/pcm;rate=16000" |}.

(** Start, microphone granted, channel open, session handle stored. *)
Definition session_events : list Event :=
  [ ClickConnection 1%nat 2%nat;
    MicrophoneGranted {| getTracks := [3%nat] |} [] 7%nat;
    ChannelOpen;
    SessionResolved 4%nat ].

(** An audio message without interruption, and a bare interruption. *)
Definition chunk : LiveServerMessage :=
  {| audioData := Some "UklGRg=="%string; interrupted := false |}.

Definition barge_in : LiveServerMessage :=
  {| audioData := None; interrupted := true |}.

(** One second and half a second of audio at 24 kHz. *)
Definition one_second : AudioBuffer := {| frames := 24000 |}.
Definition half_second : AudioBuffer := {| frames := 12000 |}.


(** Two chunks, the second arriving while the first still plays. *)
Definition timely_chunks : list Delivery :=
  [ {| msg := chunk; arrival := 0; decoded := one_second |};
    {| msg := chunk; arrival := 100; decoded := half_second |} ].

(** Two chunks, the second arriving a second after the first has ended. *)
Definition late_chunks : list Delivery :=
  [ {| msg := chunk; arrival := 0; decoded := one_second |};
    {| msg := chunk; arrival := 48000; decoded := half_second |} ].


(** A live session is closed by the channel; an audio message still
    arrives. *)
Definition late_audio : list Event :=
  session_events ++ [ChannelClose; ChannelMessage chunk 0].

(** The state of a live session before any audio arrived. *)
Definition session_open : State :=
  exec (run example_createPcmBlob session_events) initial.

(** The state of a live session that has played one second of audio. *)
Definition after_one_chunk : State :=
  exec (run example_createPcmBlob
          (session_events ++
           [ChannelMessage chunk 0; ChunkDecoded chunk one_second]))
       initial.

(** ** The view (JSX of [App.tsx], lines 227-416) *)

(** A [ConnectionStatus] rendered as text: the string it is. *)
Definition status_text (st : ConnectionStatus) : string :=
  match st with
  | disconnected => "disconnected"
  | connecting => "connecting"
  | connected => "connected"
  | error => "error"
  end.

(** The status badge (line 355):
    [{status === 'connected' && isMuted ? 'Muted' : status}]. *)
Definition badge_text (s : State) : string :=
  if ConnectionStatus_eqb (status s) connected && isMuted s then "Muted"
  else status_text (status s).

(** The label of the main button (line 390). *)
Definition button_label (s : State) : string :=
  if ConnectionStatus_eqb (status s) connected then "End Conversation"
  else if ConnectionStatus_eqb (status s) connecting then "Connecting..."
  else "Start Conversation".

(** [disabled={status === 'connecting'}] (line 383). *)
Definition button_disabled (s : State) : bool :=
  ConnectionStatus_eqb (status s) connecting.

(** The mute button exists under [status === 'connected' && (...)]
    (line 363). *)
Definition mute_button_rendered (s : State) : bool :=
  ConnectionStatus_eqb (status s) connected.

(** The footer text (line 409): [{isMuted ? 'Input Muted' : 'Mic Active'}]. *)
Definition footer_text (s : State) : string :=
  if isMuted s then "Input Muted" else "Mic Active".

(** The padding of the orb in pixels (line 317) and the scale factor of the
    glow (line 295), as exact values. Their constants 20, 10, 1 and 0.5 are
    doubles, and so are the bounds 10, 20, 1 and 3/2 proved for them below:
    rounding to nearest is monotone, so a bound that holds for the exact
    value holds for the double the code computes. (The scale of the orb
    itself, line 329, is built from 0.8 and 0.4, which are not doubles: at
    intensity 1 the code computes a value above 6/5. It is left out.) *)
Definition orb_padding (s : State) : Q := (20 - intensity s * 10)%Q.
Definition glow_scale (s : State) : Q := (1 + intensity s * (1 # 2))%Q.

(** ** Further vocabulary *)

(** What [getByteFrequencyData] can write into a [Uint8Array]. *)
Definition is_byte (b : Z) : Prop := 0 <= b <= 255.

(** The locals [sum] and [average] of [update], as functions of the data. *)
Definition bins_sum (dataArray : list Z) : Z :=
  fold_left (fun acc i => acc + nth i dataArray 0) (seq 0 bufferLength) 0.

Definition bins_average (dataArray : list Z) : Q :=
  (inject_Z (bins_sum dataArray) / inject_Z (Z.of_nat bufferLength))%Q.

(** The events that carry frequency data carry bytes. *)
Definition byte_frames (e : Event) : Prop :=
  match e with
  | AnimationFrame dataArray _ => Forall is_byte dataArray
  | MicrophoneGranted _ dataArray _ => Forall is_byte dataArray
  | _ => True
  end.

(** What holds of the state between any two events: the mute flag is on
    only during a connected session, the two mute flags agree, a
    disconnected component holds neither audio context nor microphone
    stream, and the status is never ['error']. *)
Definition lifecycle_invariant (s : State) : Prop :=
  (isMuted s = true -> status s = connected) /\
  isMuted s = isMutedRef s /\
  (status s = disconnected ->
   inputAudioCtxRef s = None /\ outputAudioCtxRef s = None /\
   streamRef s = None) /\
  status s <> error.

(** The intensity is a fraction of full level. *)
Definition intensity_in_range (s : State) : Prop :=
  (0 <= intensity s)%Q /\ (intensity s <= 1)%Q.

(** The tracks passed to [track.stop()], in call order. *)
Definition tracks_stopped (cs : list Call) : list MediaStreamTrack :=
  flat_map (fun c => match c with TrackStop t => [t] | _ => [] end) cs.

(** The contexts passed to [close()], in call order. *)
Definition contexts_closed (cs : list Call) : list AudioContext :=
  flat_map (fun c => match c with ContextClose x => [x] | _ => [] end) cs.

(** The contexts and the tracks that the refs hold. *)
Definition held_contexts (s : State) : list AudioContext :=
  match inputAudioCtxRef s with Some c => [c] | None => [] end ++
  match outputAudioCtxRef s with Some c => [c] | None => [] end.

Definition held_tracks (s : State) : list MediaStreamTrack :=
  match streamRef s with Some m => getTracks m | None => [] end.

(** The nodes started by the end of a call log, on top of [started]. *)
Fixpoint started_after (started : list AudioBufferSourceNode)
    (cs : list Call) : list AudioBufferSourceNode :=
  match cs with
  | [] => started
  | SourceStart n _ :: cs' => started_after (n :: started) cs'
  | _ :: cs' => started_after started cs'
  end.

(** Whether every [stop] in a call log is on a node started before it,
    [started] being the nodes started before the log begins. *)
Fixpoint stops_follow_starts (started : list AudioBufferSourceNode)
    (cs : list Call) : bool :=
  match cs with
  | [] => true
  | SourceStart n _ :: cs' => stops_follow_starts (n :: started) cs'
  | SourceStop n :: cs' =>
      Set_has n started && stops_follow_starts started cs'
  | _ :: cs' => stops_follow_starts started cs'
  end.

(** A message that carries the interruption signal, at either half of
    [onmessage]. *)
Definition carries_interruption (e : Event) : Prop :=
  match e with
  | ChannelMessage m _ => interrupted m = true
  | ChunkDecoded m _ => interrupted m = true
  | _ => False
  end.

(** The events that replace the stored contexts or the stored stream. *)
Definition is_click_connection (e : Event) : Prop :=
  match e with
  | ClickConnection _ _ => True
  | _ => False
  end.

Definition is_microphone_granted (e : Event) : Prop :=
  match e with
  | MicrophoneGranted _ _ _ => True
  | _ => False
  end.

(** Playback seen on its own: a message handled in one go, decode
    included, or the end of a node. *)
Inductive PlaybackEvent : Type :=
| Delivered (d : Delivery)
| Ended (source : AudioBufferSourceNode).

Definition playback (p : PlaybackEvent) : Act unit :=
  match p with
  | Delivered d => deliver d
  | Ended source => onended source
  end.

Definition playback_all (ps : list PlaybackEvent) : Act unit :=
  forEach ps playback.

(** The speaking flag is on exactly when the active set is not empty. *)
Definition speaking_iff_active (s : State) : Prop :=
  isSpeaking s = true <-> sourcesRef s <> [].

(** The spec's scenario: two chunks, then the end of each node. *)
Definition two_chunks_played : list PlaybackEvent :=
  [ Delivered {| msg := chunk; arrival := 0; decoded := one_second |};
    Delivered {| msg := chunk; arrival := 100; decoded := half_second |};
    Ended 0%nat;
    Ended 1%nat ].

(** A muted live session in which the assistant is speaking: the session is
    opened, the user mutes, an audio chunk arrives and is decoded. *)
Definition muted_while_speaking : list Event :=
  [ MicrophoneGranted {| getTracks := [3%nat] |} [] 7%nat;
    ChannelOpen;
    SessionResolved 4%nat;
    ClickMute;
    ChannelMessage chunk 0;
    ChunkDecoded chunk one_second ].

(** Thirty-two bins at full level. *)
Definition loud_frame : list Z := repeat 255 32.
(** ** Simplification of handlers

    Handlers are evaluated by value, with the state split into its fields;
    [cleanup] and [forEach] stay folded and are rewritten by their
    equations. *)

Ltac act_unfold :=
  cbv [exec calls result deliver on_failure
       onerror onclose onopen connect_catch connect_stream connect_session
       connect_begin click_connection click_mute toggleConnection toggleMute
       onended onmessage onmessage_begin onmessage_decoded
       onmessage_interrupted update bind read write call when ret
       setStatus setErrorMessage setIsSpeaking setIntensity setIsMuted
       set_inputAudioCtxRef set_outputAudioCtxRef set_streamRef
       set_sourcesRef set_nextStartTimeRef set_sessionRef set_isMutedRef
       set_rafRef set_created set_analysisIsSpeaking
       status errorMessage isSpeaking intensity isMuted inputAudioCtxRef
       outputAudioCtxRef streamRef sourcesRef nextStartTimeRef sessionRef
       isMutedRef rafRef created analysisIsSpeaking
       cleanup_state truthy_handle opt_calls fst snd].

Lemma forEach_call (A : Type) (g : A -> Call) (l : list A) (s : State) :
  forEach l (fun x => call (g x)) s = (tt, s, map g l).
Proof.
  induction l as [|x l IH]; [reflexivity|].
  cbn [forEach]. unfold bind. cbv beta zeta.
  change (snd (fst (call (g x) s))) with s. rewrite IH. reflexivity.
Qed.

Lemma forEach_call_unfolded (A : Type) (g : A -> Call) (l : list A)
    (s : State) :
  forEach l (fun x s0 => (tt, s0, [g x])) s = (tt, s, map g l).
Proof. exact (forEach_call g l s). Qed.

Lemma cleanup_run (s : State) :
  cleanup s = (tt, cleanup_state s, cleanup_calls s).
Proof.
  destruct s as [st em sp it mu ic oc sr so ns se mr rf cr an].
  unfold cleanup_calls.
  destruct rf as [[|h]|], se as [x|], sr as [m|], ic as [c1|], oc as [c2|];
    cbv [cleanup]; act_unfold; rewrite ?forEach_call_unfolded; act_unfold;
    rewrite ?forEach_call_unfolded; act_unfold;
    cbn [app]; rewrite ?app_nil_r; reflexivity.
Qed.

Lemma cleanup_exec (s : State) : exec cleanup s = cleanup_state s.
Proof. unfold exec. rewrite cleanup_run. reflexivity. Qed.

Lemma cleanup_issued (s : State) : calls cleanup s = cleanup_calls s.
Proof. unfold calls. rewrite cleanup_run. reflexivity. Qed.

(** Teardown releases every resource and resets the flags, whatever the
    state it starts from. *)
Lemma cleanup_released (s : State) : released (exec cleanup s).
Proof. rewrite cleanup_exec. repeat split. Qed.

(** Teardown does not touch the start-time cursor. *)
Lemma cleanup_keeps_cursor (s : State) :
  nextStartTimeRef (exec cleanup s) = nextStartTimeRef s.
Proof. rewrite cleanup_exec. reflexivity. Qed.

(** Teardown does not touch the frame handle. *)
Lemma cleanup_keeps_handle (s : State) :
  rafRef (exec cleanup s) = rafRef s.
Proof. rewrite cleanup_exec. reflexivity. Qed.

(** A second teardown changes nothing in the state. *)
Lemma cleanup_state_idempotent (s : State) :
  exec cleanup (exec cleanup s) = exec cleanup s.
Proof. rewrite !cleanup_exec. reflexivity. Qed.

(** The calls of a second teardown: nothing but the repeated
    [cancelAnimationFrame]. *)
Lemma cleanup_calls_again (s : State) :
  calls cleanup (exec cleanup s) =
  if truthy_handle (rafRef s)
  then opt_calls (fun h => [CancelAnimationFrame h]) (rafRef s) else [].
Proof.
  rewrite cleanup_issued, cleanup_exec. unfold cleanup_calls.
  destruct s as [st em sp it mu ic oc sr so ns se mr rf cr an].
  act_unfold. cbn [map app]. destruct rf as [[|h]|]; reflexivity.
Qed.

(** ** Teardown *)

(** C3 (the code departs from the claim). After a session that played one
    second of audio, teardown releases the session, the stream and both
    contexts and resets status and flags, but the start-time cursor keeps
    its value of 24000 frames, so the state is not the baseline; the first
    chunk of the next session, arriving at clock 0 of a new output context,
    is then scheduled one second late. The interruption path, by contrast,
    resets the cursor. *)
Theorem C3_teardown_keeps_stale_cursor :
  nextStartTimeRef after_one_chunk = 24000 /\
  released (exec cleanup after_one_chunk) /\
  nextStartTimeRef (exec cleanup after_one_chunk) = 24000 /\
  ~ baseline (exec cleanup after_one_chunk) /\
  scheduled
    (calls (run example_createPcmBlob
              (session_events ++
               [ChannelMessage chunk 0; ChunkDecoded chunk half_second]))
           (exec cleanup after_one_chunk)) = [24000] /\
  nextStartTimeRef (exec (onmessage_begin barge_in 0) after_one_chunk) = 0.
Proof.
  split; [vm_compute; reflexivity|]. split; [apply cleanup_released|].
  split; [vm_compute; reflexivity|]. split.
  - intros (_ & _ & _ & _ & _ & _ & H & _). vm_compute in H. discriminate H.
  - split; vm_compute; reflexivity.
Qed.

Lemma filter_map_none (A : Type) (g : A -> Call) (l : list A) :
  (forall x, is_cancel (g x) = false) -> filter is_cancel (map g l) = [].
Proof.
  intros H. induction l as [|x l IH]; [reflexivity|].
  cbn. rewrite H. exact IH.
Qed.

Lemma filter_cancel_cleanup (s : State) :
  filter is_cancel (cleanup_calls s) =
  if truthy_handle (rafRef s)
  then opt_calls (fun h => [CancelAnimationFrame h]) (rafRef s) else [].
Proof.
  unfold cleanup_calls. rewrite !filter_app.
  assert (E : forall (A : Type) (f : A -> list Call) (o : option A),
            (forall x, filter is_cancel (f x) = []) ->
            filter is_cancel (opt_calls f o) = []).
  { intros A f [x|] H; [apply H | reflexivity]. }
  rewrite (E _ _ (sessionRef s)), (E _ _ (streamRef s)),
    (E _ _ (inputAudioCtxRef s)), (E _ _ (outputAudioCtxRef s));
    try (intros x; (reflexivity || (apply filter_map_none; reflexivity))).
  rewrite filter_map_none by reflexivity. rewrite !app_nil_r.
  destruct (rafRef s) as [[|h]|]; reflexivity.
Qed.

(** C5 (as amended). Teardown is idempotent on the state: a second
    invocation in a row leaves the state of the first. The second invocation
    stops, closes and releases nothing: its calls are exactly the
    [cancelAnimationFrame] calls of the first, repeated for the frame handle
    that [rafRef] still holds. The resulting state has status disconnected,
    the flags off, intensity zero, an empty active set and no session,
    stream or audio context. *)
Theorem C5_teardown_idempotent (s : State) :
  exec cleanup (exec cleanup s) = exec cleanup s /\
  calls cleanup (exec cleanup s) = filter is_cancel (calls cleanup s) /\
  stopped (calls cleanup (exec cleanup s)) = [] /\
  released (exec cleanup (exec cleanup s)).
Proof.
  split; [apply cleanup_state_idempotent|].
  assert (E : calls cleanup (exec cleanup s) = filter is_cancel (calls cleanup s)).
  { rewrite cleanup_calls_again, cleanup_issued, filter_cancel_cleanup.
    reflexivity. }
  split; [exact E|]. split; [|apply cleanup_released].
  rewrite cleanup_calls_again.
  destruct (rafRef s) as [[|h]|]; reflexivity.
Qed.

(** C5 (as stated, refuted). In a live session the analysis loop has stored
    frame handle 7 in [rafRef]; teardown never clears it, so a second
    teardown calls [cancelAnimationFrame(7)] again. After one second of
    audio the cursor stands at 24000 and stays there through both
    teardowns, so the state reached is not the baseline either. *)
Lemma C5_second_teardown_cancels_again :
  rafRef after_one_chunk = Some 7%nat /\
  calls cleanup (exec cleanup after_one_chunk) = [CancelAnimationFrame 7%nat] /\
  nextStartTimeRef (exec cleanup (exec cleanup after_one_chunk)) = 24000 /\
  ~ teardown_idempotent_as_stated.
Proof.
  split; [vm_compute; reflexivity|]. split; [vm_compute; reflexivity|].
  split; [vm_compute; reflexivity|].
  intros H. destruct (H after_one_chunk) as (_ & E & _).
  vm_compute in E. discriminate E.
Qed.

(** ** Events, one at a time *)

Ltac step_unfold :=
  cbv [step run onaudioprocess]; act_unfold;
  rewrite ?cleanup_run, ?forEach_call_unfolded; act_unfold.

Ltac act_split :=
  match goal with
  | |- context [match ?o with Some _ => _ | None => _ end] =>
      is_var o; destruct o
  | |- context [if ?c then _ else _] => is_var c; destruct c
  | |- context [if has_audio ?m then _ else _] =>
      destruct (has_audio m) eqn:?
  | |- context [if interrupted ?m then _ else _] =>
      destruct (interrupted m) eqn:?
  | |- context [if ConnectionStatus_eqb ?a ?b then _ else _] =>
      destruct (ConnectionStatus_eqb a b) eqn:?
  | |- context [if Nat.eqb ?a ?b then _ else _] =>
      destruct (Nat.eqb a b) eqn:?
  end.

Ltac act_cases := step_unfold; repeat (act_split; step_unfold).

Ltac split_state s :=
  destruct s as [st em sp it mu ic oc sr so ns se mr rf cr an].

Section Steps.

Variable createPcmBlob : Float32Array -> Blob.

Local Abbreviation step := (step createPcmBlob).
Local Abbreviation run := (run createPcmBlob).

Lemma run_nil (s : State) : exec (run []) s = s.
Proof. reflexivity. Qed.

Lemma run_cons (e : Event) (evs : list Event) (s : State) :
  exec (run (e :: evs)) s = exec (run evs) (exec (step e) s).
Proof. reflexivity. Qed.

Lemma run_app (evs1 evs2 : list Event) (s : State) :
  exec (run (evs1 ++ evs2)) s = exec (run evs2) (exec (run evs1) s).
Proof.
  revert s. induction evs1 as [|e evs1 IH]; intros s; [reflexivity|].
  rewrite <- app_comm_cons, !run_cons. apply IH.
Qed.

Lemma calls_run_cons (e : Event) (evs : list Event) (s : State) :
  calls (run (e :: evs)) s =
  calls (step e) s ++ calls (run evs) (exec (step e) s).
Proof. reflexivity. Qed.

Lemma eqb_status_false (a b : ConnectionStatus) :
  ConnectionStatus_eqb a b = false -> a <> b.
Proof. destruct a, b; cbn; congruence. Qed.

Lemma eqb_status_true (a b : ConnectionStatus) :
  ConnectionStatus_eqb a b = true -> a = b.
Proof. destruct a, b; cbn; congruence. Qed.

Lemma message_or_default_shown (err : Err) :
  String.eqb (message_or_default err) EmptyString = false.
Proof.
  unfold message_or_default. destruct (message err) as [m|]; [|reflexivity].
  destruct (String.eqb m EmptyString) eqn:E; [reflexivity | exact E].
Qed.

(** Only the start of a connect attempt clears the error message. *)
Lemma step_error_message (e : Event) (s : State) :
  errorMessage (exec (step e) s) = None ->
  errorMessage s = None \/ starts_connect s e.
Proof.
  split_state s. destruct e; cbv [starts_connect]; act_cases.
  all: try (intros H; left; exact H).
  all: try discriminate.
  intros _. right. split; apply eqb_status_false; assumption.
Qed.

(** A message on screen stays on screen through every event but a click on
    the main button. *)
Lemma step_error_shown (e : Event) (s : State) :
  (forall i o, e <> ClickConnection i o) ->
  error_shown s = true -> error_shown (exec (step e) s) = true.
Proof.
  intros Hne. split_state s.
  destruct e; cbv [error_shown]; act_cases; try (intros H; exact H);
    try (intros _; reflexivity);
    try (intros _; rewrite message_or_default_shown; reflexivity).
  all: exfalso; eapply Hne; reflexivity.
Qed.

Lemma run_error_shown (evs : list Event) (s : State) :
  Forall (fun e => forall i o, e <> ClickConnection i o) evs ->
  error_shown s = true -> error_shown (exec (run evs) s) = true.
Proof.
  intros H. revert s. induction H as [|e evs He _ IH]; intros s Hs.
  - exact Hs.
  - rewrite run_cons. apply IH. apply step_error_shown; assumption.
Qed.

(** Each event leaves the status alone or moves it along one of three
    edges: to [connecting] at the start of a connect attempt, to
    [connected] at channel open, to [disconnected] at a teardown. *)
Lemma step_status (e : Event) (s : State) :
  status (exec (step e) s) = status s \/
  (status (exec (step e) s) = connecting /\ starts_connect s e) \/
  (status (exec (step e) s) = connected /\ e = ChannelOpen) \/
  (status (exec (step e) s) = disconnected /\ tears_down s e).
Proof.
  split_state s.
  destruct e; cbv [starts_connect tears_down]; act_cases;
    try (left; reflexivity);
    try (right; right; left; split; reflexivity);
    try (right; right; right; split; [reflexivity | exact I]);
    try (right; right; right; split; reflexivity).
  - right; right; right. split; [reflexivity|].
    apply eqb_status_true. assumption.
  - right; left. split; [reflexivity|].
    split; apply eqb_status_false; assumption.
Qed.

Lemma step_never_error (e : Event) (s : State) :
  status s <> error -> status (exec (step e) s) <> error.
Proof.
  intros H.
  destruct (step_status e s) as [E | [[E _] | [[E _] | [E _]]]];
    rewrite E; (exact H || discriminate).
Qed.

Lemma run_never_error (evs : list Event) (s : State) :
  status s <> error -> status (exec (run evs) s) <> error.
Proof.
  revert s. induction evs as [|e evs IH]; intros s H; [exact H|].
  rewrite run_cons. apply IH. apply step_never_error. exact H.
Qed.

(** C10. Teardown writes status, flags, intensity and resource references
    but never the error message: the message after [cleanup] is the message
    before. No event clears the message except a click that starts a new
    connect attempt, which does clear it; so a message put on screen by a
    failure stays on screen across the teardown and through every later
    event up to the next click on the main button. *)
Theorem C10_teardown_keeps_error_message (s : State) :
  errorMessage (exec cleanup s) = errorMessage s /\
  released (exec cleanup s) /\
  (forall e, errorMessage (exec (step e) s) = None ->
             errorMessage s = None \/ starts_connect s e) /\
  (forall i o, starts_connect s (ClickConnection i o) ->
               errorMessage (exec (step (ClickConnection i o)) s) = None) /\
  error_shown (exec onerror s) = true /\
  (forall evs,
      Forall (fun e => forall i o, e <> ClickConnection i o) evs ->
      error_shown s = true -> error_shown (exec (run evs) s) = true).
Proof.
  split; [rewrite cleanup_exec; reflexivity|].
  split; [apply cleanup_released|].
  split; [intros e; apply step_error_message|].
  split.
  - intros i o [H1 H2]. split_state s.
    cbv [status] in H1, H2.
    destruct st; try congruence; act_cases; try reflexivity;
      match goal with H : ConnectionStatus_eqb _ _ = true |- _ =>
        cbv in H; discriminate H end.
  - split; [split_state s; act_cases; reflexivity|].
    intros evs. apply run_error_shown.
Qed.

(** C8 (as amended). The status is never ['error']: from the mounted
    component no sequence of events reaches it. Each event leaves the status
    alone or moves it to [connecting] (start of a connect attempt), to
    [connected] (channel open) or to [disconnected] (teardown). A channel
    error, in any state, puts the message on screen, tears the session down
    and leaves the status [disconnected]. *)
Theorem C8_status_never_error (evs : list Event) (s : State) (e : Event) :
  status (exec (run evs) initial) <> error /\
  (status (exec (step e) s) = status s \/
   (status (exec (step e) s) = connecting /\ starts_connect s e) \/
   (status (exec (step e) s) = connected /\ e = ChannelOpen) \/
   (status (exec (step e) s) = disconnected /\ tears_down s e)) /\
  status (exec (step ChannelError) s) = disconnected /\
  error_shown (exec (step ChannelError) s) = true /\
  released (exec (step ChannelError) s) /\
  calls (step ChannelError) s = calls cleanup s.
Proof.
  split; [apply run_never_error; discriminate|].
  split; [apply step_status|].
  split_state s. cbv [released]. act_cases. repeat split.
Qed.

End Steps.

(** C10, at a concrete input: after a channel error in a live session, the
    message is still on screen after the close event and the unmount. *)
Lemma C10_witness :
  error_shown
    (exec (run example_createPcmBlob [ChannelClose; Unmount])
          (exec onerror session_open)) = true.
Proof.
  apply (proj2 (proj2 (proj2 (proj2 (proj2
    (C10_teardown_keeps_error_message example_createPcmBlob
       (exec onerror session_open))))))).
  - repeat constructor; discriminate.
  - vm_compute. reflexivity.
Defined.

(** C8 (as stated, refuted). A channel error received while connected, or
    while connecting, leaves the status [disconnected], not ['error']. *)
Lemma C8_channel_error_gives_disconnected :
  status session_open = connected /\
  status (exec (step example_createPcmBlob ChannelError) session_open)
    = disconnected /\
  status (exec (step example_createPcmBlob ChannelError) session_open)
    <> error /\
  status (exec (step example_createPcmBlob (ClickConnection 1%nat 2%nat))
               initial) = connecting /\
  status (exec (run example_createPcmBlob
                  [ClickConnection 1%nat 2%nat; ChannelError]) initial)
    <> error.
Proof.
  repeat split; try (vm_compute; reflexivity); vm_compute; discriminate.
Qed.

(** ** Failures *)

(** C6. Of the three failure paths, the channel-error callback and the
    [catch] block of [connect] put a non-empty message on screen, and the
    channel-close callback does not: starting with no message, a message is
    on screen afterwards exactly when the failure is not a close.
    [onerror] sets its message and then runs the teardown; [onclose] is the
    teardown alone and leaves the message field as it was. All three issue
    the calls of the teardown and end in the released state. *)
Theorem C6_message_iff_error_or_setup_failure (f : Failure) (s : State) :
  (errorMessage s = None ->
   (error_shown (exec (on_failure f) s) = true <-> f <> ChannelClosed)) /\
  exec onerror s =
    exec cleanup
      (setErrorMessage
         (Some "A connection error occurred. Please try again."%string) s) /\
  errorMessage (exec onerror s) =
    Some "A connection error occurred. Please try again."%string /\
  (forall err, errorMessage (exec (connect_catch err) s) =
               Some (message_or_default err)) /\
  onclose s = cleanup s /\
  errorMessage (exec onclose s) = errorMessage s /\
  calls (on_failure f) s = calls cleanup s /\
  released (exec (on_failure f) s) /\
  exec (on_failure f) s =
    setErrorMessage (errorMessage (exec (on_failure f) s)) (exec cleanup s).
Proof.
  split.
  { intros Hnone. split_state s. cbv [errorMessage] in Hnone. subst em.
    destruct f; cbv [error_shown]; act_cases.
    - rewrite message_or_default_shown. split; [discriminate | reflexivity].
    - split; [discriminate | reflexivity].
    - split; [discriminate | intros H; exfalso; apply H; reflexivity]. }
  split; [split_state s; act_cases; reflexivity|].
  split; [split_state s; act_cases; reflexivity|].
  split; [intros err; split_state s; act_cases; reflexivity|].
  split; [reflexivity|].
  split; [split_state s; act_cases; reflexivity|].
  split; [destruct f; split_state s; act_cases; reflexivity|].
  split; [destruct f; split_state s; cbv [released]; act_cases;
          repeat split|].
  destruct f; split_state s; act_cases; reflexivity.
Qed.

(** C6, at a concrete input: in a live session with no message on screen, a
    channel error puts one there. *)
Lemma C6_witness :
  error_shown (exec (on_failure ChannelFailure) session_open) = true <->
  ChannelFailure <> ChannelClosed.
Proof.
  apply (proj1 (C6_message_iff_error_or_setup_failure ChannelFailure
                  session_open)).
  vm_compute. reflexivity.
Defined.

(** ** Playback *)

Lemma stopped_map_stop (l : list AudioBufferSourceNode) :
  stopped (map SourceStop l) = l.
Proof.
  induction l as [|x l IH]; [reflexivity|]. cbn. unfold stopped in IH.
  rewrite IH. reflexivity.
Qed.

(** The interruption block, in any state. *)
Lemma onmessage_interrupted_run (m : LiveServerMessage) (s : State) :
  interrupted m = true ->
  onmessage_interrupted m s =
  (tt, setIsSpeaking false (set_nextStartTimeRef 0 (set_sourcesRef [] s)),
   map SourceStop (sourcesRef s)).
Proof.
  intros H. split_state s. cbv [onmessage_interrupted]. rewrite H.
  act_cases. rewrite app_nil_r. reflexivity.
Qed.

(** C2. A message that carries the interruption signal and no audio is
    handled in one run, with no suspension: whatever the active set and the
    cursor were, [stop] is called on every node of the set, in order, and on
    nothing else; afterwards the set is empty, the cursor is zero and the
    speaking flag is off. When the message also carries audio, the same
    holds at the end of the run that follows the decode, the new node
    included. *)
Theorem C2_interruption_clears_playback (m : LiveServerMessage)
    (currentTime : Time) (audioBuffer : AudioBuffer) (s : State) :
  interrupted m = true ->
  (has_audio m = false ->
   result (onmessage_begin m currentTime) s = Finished /\
   calls (onmessage_begin m currentTime) s = map SourceStop (sourcesRef s) /\
   stopped (calls (onmessage_begin m currentTime) s) = sourcesRef s /\
   sourcesRef (exec (onmessage_begin m currentTime) s) = [] /\
   nextStartTimeRef (exec (onmessage_begin m currentTime) s) = 0 /\
   isSpeaking (exec (onmessage_begin m currentTime) s) = false) /\
  (stopped (calls (onmessage_decoded m audioBuffer) s) =
     Set_add (created s) (sourcesRef s) /\
   sourcesRef (exec (onmessage_decoded m audioBuffer) s) = [] /\
   nextStartTimeRef (exec (onmessage_decoded m audioBuffer) s) = 0 /\
   isSpeaking (exec (onmessage_decoded m audioBuffer) s) = false).
Proof.
  intros Hint. split.
  - intros Haudio.
    assert (E : onmessage_begin m currentTime s =
                (Finished,
                 setIsSpeaking false
                   (set_nextStartTimeRef 0 (set_sourcesRef [] s)),
                 map SourceStop (sourcesRef s))).
    { unfold onmessage_begin. rewrite Haudio. unfold bind.
      rewrite onmessage_interrupted_run by exact Hint.
      cbn [fst snd ret]. rewrite app_nil_r. reflexivity. }
    unfold result, calls, exec. rewrite E. cbn [fst snd].
    rewrite stopped_map_stop. repeat split.
  - split_state s. cbv [onmessage_decoded onmessage_interrupted].
    rewrite Hint. act_cases. cbn [stopped flat_map app].
    fold (stopped (map SourceStop (Set_add cr so))).
    rewrite app_nil_r, stopped_map_stop. repeat split.
Qed.

(** C2, at a concrete input: a bare interruption while one node plays. *)
Lemma C2_witness :
  calls (onmessage_begin barge_in 500) after_one_chunk = [SourceStop 0%nat] /\
  sourcesRef (exec (onmessage_begin barge_in 500) after_one_chunk) = [] /\
  nextStartTimeRef (exec (onmessage_begin barge_in 500) after_one_chunk) = 0 /\
  isSpeaking (exec (onmessage_begin barge_in 500) after_one_chunk) = false.
Proof.
  destruct (C2_interruption_clears_playback barge_in 500 one_second
              after_one_chunk eq_refl) as [H _].
  destruct (H eq_refl) as (_ & Hc & _ & Hs & Hn & Hf).
  split; [rewrite Hc; vm_compute; reflexivity|].
  split; [exact Hs|]. split; [exact Hn | exact Hf].
Defined.

(** One audio chunk without interruption, handled with a live output
    context: a single [start] at the later of cursor and clock, and the
    cursor moved to the end of the buffer. *)
Lemma deliver_audio (d : Delivery) (s : State) :
  audio_only d -> outputAudioCtxRef s <> None ->
  calls (deliver d) s =
    [SourceStart (created s) (Z.max (nextStartTimeRef s) (arrival d))] /\
  nextStartTimeRef (exec (deliver d) s) =
    Z.max (nextStartTimeRef s) (arrival d) + duration (decoded d) /\
  outputAudioCtxRef (exec (deliver d) s) = outputAudioCtxRef s /\
  isSpeaking (exec (deliver d) s) = true /\
  sourcesRef (exec (deliver d) s) = Set_add (created s) (sourcesRef s).
Proof.
  intros [Ha Hi] Hctx. destruct d as [m t b]. cbn [msg arrival decoded] in *.
  split_state s. cbv [outputAudioCtxRef] in Hctx.
  destruct oc as [c|]; [|congruence].
  cbv [deliver onmessage onmessage_begin onmessage_decoded
       onmessage_interrupted msg arrival decoded].
  rewrite Ha, Hi. act_cases. repeat split.
Qed.

Lemma scheduled_app (a b : list Call) :
  scheduled (a ++ b) = scheduled a ++ scheduled b.
Proof. apply flat_map_app. Qed.

Lemma deliver_all_cons (d : Delivery) (ds : list Delivery) (s : State) :
  calls (deliver_all (d :: ds)) s =
    calls (deliver d) s ++ calls (deliver_all ds) (exec (deliver d) s) /\
  exec (deliver_all (d :: ds)) s = exec (deliver_all ds) (exec (deliver d) s).
Proof. split; reflexivity. Qed.

Lemma deliver_all_schedule (ds : list Delivery) (s : State) :
  Forall audio_only ds -> outputAudioCtxRef s <> None ->
  scheduled (calls (deliver_all ds) s) = schedule (nextStartTimeRef s) ds.
Proof.
  intros H. revert s. induction H as [|d ds Hd _ IH]; intros s Hctx.
  - reflexivity.
  - destruct (deliver_audio s Hd Hctx) as (Hc & Hn & Ho & _).
    destruct (deliver_all_cons d ds s) as [E _]. rewrite E, scheduled_app, Hc.
    cbn [scheduled flat_map app schedule].
    fold (scheduled (calls (deliver_all ds) (exec (deliver d) s))).
    rewrite IH by (rewrite Ho; exact Hctx). rewrite Hn. reflexivity.
Qed.

Lemma schedule_length (ds : list Delivery) (c : Time) :
  List.length (schedule c ds) = List.length ds.
Proof.
  revert c. induction ds as [|d ds IH]; intros c; [reflexivity|].
  cbn. rewrite IH. reflexivity.
Qed.

(** Two neighbours in a schedule: the second starts at the later of the end
    of the first and its own arrival. *)
Lemma schedule_adjacent (ds : list Delivery) (c : Time) (i : nat)
    (d1 d2 : Delivery) (t1 t2 : Time) :
  nth_error ds i = Some d1 -> nth_error ds (S i) = Some d2 ->
  nth_error (schedule c ds) i = Some t1 ->
  nth_error (schedule c ds) (S i) = Some t2 ->
  t2 = Z.max (t1 + duration (decoded d1)) (arrival d2).
Proof.
  revert c i. induction ds as [|d ds IH]; intros c i H1 H2 H3 H4.
  - destruct i; discriminate H1.
  - destruct i as [|i].
    + cbn in H1, H3. injection H1 as <-. injection H3 as <-.
      destruct ds as [|d' ds]; [discriminate H2|].
      cbn in H2, H4. injection H2 as <-. injection H4 as <-. reflexivity.
    + cbn in H1, H2, H3, H4. eapply IH; eassumption.
Qed.

Lemma duration_nonneg (b : AudioBuffer) : 0 <= duration b.
Proof. unfold duration. apply N2Z.is_nonneg. Qed.

(** C1 (as amended). For audio chunks delivered in order with no
    interruption signal and a live output context, each chunk is started at
    the later of the cursor and the clock read at its arrival, and the cursor
    then advances by the buffer's duration. Hence every start is the later
    of the previous start plus the previous duration and the chunk's own
    arrival clock: starts never decrease, a chunk never starts before the
    previous one ends, and it starts exactly at that end whenever it arrives
    no later than that end. *)
Theorem C1_starts_follow_cursor (ds : list Delivery) (s : State) :
  outputAudioCtxRef s <> None ->
  Forall audio_only ds ->
  scheduled (calls (deliver_all ds) s) = schedule (nextStartTimeRef s) ds /\
  List.length (scheduled (calls (deliver_all ds) s)) = List.length ds /\
  (forall d rest, ds = d :: rest ->
     calls (deliver d) s =
       [SourceStart (created s) (Z.max (nextStartTimeRef s) (arrival d))] /\
     nextStartTimeRef (exec (deliver d) s) =
       Z.max (nextStartTimeRef s) (arrival d) + duration (decoded d)) /\
  (forall i d1 d2 t1 t2,
     nth_error ds i = Some d1 -> nth_error ds (S i) = Some d2 ->
     nth_error (scheduled (calls (deliver_all ds) s)) i = Some t1 ->
     nth_error (scheduled (calls (deliver_all ds) s)) (S i) = Some t2 ->
     t2 = Z.max (t1 + duration (decoded d1)) (arrival d2) /\
     t1 <= t2 /\
     t1 + duration (decoded d1) <= t2 /\
     (arrival d2 <= t1 + duration (decoded d1) ->
      t2 = t1 + duration (decoded d1))).
Proof.
  intros Hctx Hall.
  pose proof (deliver_all_schedule s Hall Hctx) as E.
  split; [exact E|]. split; [rewrite E; apply schedule_length|]. split.
  - intros d rest ->. inversion Hall as [|? ? Hd _]; subst.
    destruct (deliver_audio s Hd Hctx) as (Hc & Hn & _). split; assumption.
  - intros i d1 d2 t1 t2 H1 H2 H3 H4. rewrite E in H3, H4.
    pose proof (schedule_adjacent _ _ _ H1 H2 H3 H4) as Ht.
    pose proof (duration_nonneg (decoded d1)). split; [exact Ht|]. lia.
Qed.

(** C1, at a concrete input: a second chunk that arrives while the first
    still plays starts exactly where the first ends. *)
Lemma C1_witness :
  scheduled (calls (deliver_all timely_chunks) session_open) = [0; 24000].
Proof.
  assert (Hctx : outputAudioCtxRef session_open <> None)
    by (vm_compute; discriminate).
  assert (Hall : Forall audio_only timely_chunks)
    by (repeat constructor).
  rewrite (proj1 (@C1_starts_follow_cursor timely_chunks session_open
                   Hctx Hall)).
  vm_compute. reflexivity.
Defined.

(** C1 (as stated, refuted). The second chunk arrives one second after the
    first has finished playing: it is started at the clock, 48000, not at
    the end of the first, 24000. *)
Lemma C1_late_chunk_leaves_gap :
  outputAudioCtxRef session_open <> None /\
  Forall audio_only late_chunks /\
  scheduled (calls (deliver_all late_chunks) session_open) = [0; 48000] /\
  ~ back_to_back late_chunks
      (scheduled (calls (deliver_all late_chunks) session_open)).
Proof.
  split; [vm_compute; discriminate|].
  split; [repeat constructor|].
  assert (E : scheduled (calls (deliver_all late_chunks) session_open)
              = [0; 48000]) by (vm_compute; reflexivity).
  split; [exact E|]. rewrite E. intros H.
  specialize (H 0%nat _ 0 48000 eq_refl eq_refl eq_refl).
  vm_compute in H. discriminate H.
Qed.

(** ** The active set along a run *)

Lemma Set_has_app (n : nat) (l1 l2 : list nat) :
  Set_has n (l1 ++ l2) = Set_has n l1 || Set_has n l2.
Proof. apply existsb_app. Qed.

Lemma Set_has_add (n x : nat) (l : list nat) :
  Set_has n (Set_add x l) = Nat.eqb n x || Set_has n l.
Proof.
  unfold Set_add. destruct (Set_has x l) eqn:E.
  - destruct (Nat.eqb n x) eqn:En; [|reflexivity].
    apply Nat.eqb_eq in En. subst n. exact E.
  - rewrite Set_has_app. cbn. rewrite orb_false_r. apply orb_comm.
Qed.

Lemma Set_has_delete (n x : nat) (l : list nat) :
  Set_has n (Set_delete x l) = negb (Nat.eqb x n) && Set_has n l.
Proof.
  unfold Set_delete, Set_has. induction l as [|y l IH].
  - cbn. apply eq_sym, andb_false_r.
  - cbn. destruct (Nat.eqb x y) eqn:Exy; cbn; rewrite IH.
    + apply Nat.eqb_eq in Exy. subst y.
      destruct (Nat.eqb n x) eqn:En.
      * apply Nat.eqb_eq in En. subst n. rewrite Nat.eqb_refl. reflexivity.
      * reflexivity.
    + destruct (Nat.eqb n y) eqn:Eny.
      * apply Nat.eqb_eq in Eny. subst y. rewrite Exy. reflexivity.
      * reflexivity.
Qed.

Lemma Set_add_not_nil (x : nat) (l : list nat) : Set_add x l <> [].
Proof.
  unfold Set_add. destruct (Set_has x l) eqn:E.
  - destruct l; [discriminate E | discriminate].
  - destruct l; discriminate.
Qed.

Lemma length_eqb_zero (A : Type) (l : list A) :
  Nat.eqb (List.length l) 0 = true <-> l = [].
Proof. destruct l; cbn; split; congruence. Qed.

Section Runs.

Variable createPcmBlob : Float32Array -> Blob.

Local Abbreviation step := (step createPcmBlob).
Local Abbreviation run := (run createPcmBlob).

(** The speaking flag goes off only in a step that ends with an empty
    active set. *)
Lemma step_speaking_cleared (e : Event) (s : State) :
  isSpeaking s = true -> isSpeaking (exec (step e) s) = false ->
  sourcesRef (exec (step e) s) = [].
Proof.
  split_state s. destruct e; act_cases; try congruence; try reflexivity.
  intros _ _. apply length_eqb_zero. assumption.
Qed.

(** A step that empties the active set leaves the speaking flag off. *)
Lemma step_set_emptied (e : Event) (s : State) :
  sourcesRef s <> [] -> sourcesRef (exec (step e) s) = [] ->
  isSpeaking (exec (step e) s) = false.
Proof.
  split_state s. destruct e; act_cases; try congruence; try reflexivity.
  - intros _ H. exfalso. exact (Set_add_not_nil _ _ H).
  - intros _ H. apply length_eqb_zero in H. congruence.
Qed.

(** A node leaves the active set only at its own end, at an interruption
    or at a teardown. *)
Lemma step_leaves (n : AudioBufferSourceNode) (e : Event) (s : State) :
  leaves n s (exec (step e) s) = true -> ends_playback n s e.
Proof.
  split_state s.
  destruct e; cbv [leaves ends_playback tears_down]; act_cases;
    rewrite ?andb_negb_r; try discriminate; try (intros _; exact I);
    try (intros _; reflexivity); try (intros _; split; reflexivity).
  all: try (intros _; apply eqb_status_true; assumption).
  - rewrite Set_has_add. destruct (Set_has n so); cbn;
      rewrite ?orb_true_r; discriminate.
  - rewrite Set_has_delete. destruct (Nat.eqb source n) eqn:E.
    + intros _. apply Nat.eqb_eq. exact E.
    + cbn. rewrite andb_negb_r. discriminate.
  - rewrite Set_has_delete. destruct (Nat.eqb source n) eqn:E.
    + intros _. apply Nat.eqb_eq. exact E.
    + cbn. rewrite andb_negb_r. discriminate.
Qed.

(** Node identities stay below the creation counter, which never goes
    down. *)
Lemma step_fresh (e : Event) (s : State) :
  fresh_ids s ->
  fresh_ids (exec (step e) s) /\ (created s <= created (exec (step e) s))%nat.
Proof.
  split_state s. unfold fresh_ids.
  destruct e; act_cases; intros H; (split; [|try lia]); try exact H;
    try (intros n Hn; discriminate Hn).
  - intros n Hn. rewrite Set_has_add in Hn.
    destruct (Nat.eqb n cr) eqn:E.
    + apply Nat.eqb_eq in E. lia.
    + cbn in Hn. specialize (H n Hn). lia.
  - intros n Hn. rewrite Set_has_delete in Hn.
    apply andb_true_iff in Hn. apply H. apply Hn.
  - intros n Hn. rewrite Set_has_delete in Hn.
    apply andb_true_iff in Hn. apply H. apply Hn.
Qed.

(** A node made earlier that is not in the active set never enters it. *)
Lemma step_no_return (n : AudioBufferSourceNode) (e : Event) (s : State) :
  (n < created s)%nat -> Set_has n (sourcesRef s) = false ->
  Set_has n (sourcesRef (exec (step e) s)) = false.
Proof.
  split_state s.
  destruct e; act_cases; intros Hlt Hn; try exact Hn; try reflexivity.
  - rewrite Set_has_add, Hn, orb_false_r. apply Nat.eqb_neq. lia.
  - rewrite Set_has_delete, Hn. apply andb_false_r.
  - rewrite Set_has_delete, Hn. apply andb_false_r.
Qed.

Lemma removals_app (n : AudioBufferSourceNode) (evs1 evs2 : list Event)
    (s : State) :
  removals createPcmBlob n s (evs1 ++ evs2) =
  (removals createPcmBlob n s evs1 + removals createPcmBlob n (exec (run evs1) s) evs2)%nat.
Proof.
  revert s. induction evs1 as [|e evs1 IH]; intros s; [reflexivity|].
  cbn [app removals]. rewrite IH.
  change (exec (run (e :: evs1)) s) with (exec (run evs1) (exec (step e) s)).
  lia.
Qed.

Lemma removals_gone (n : AudioBufferSourceNode) (evs : list Event)
    (s : State) :
  (n < created s)%nat -> Set_has n (sourcesRef s) = false ->
  removals createPcmBlob n s evs = 0%nat.
Proof.
  revert s. induction evs as [|e evs IH]; intros s Hlt Hn; [reflexivity|].
  cbn [removals]. unfold leaves. rewrite Hn. cbn [andb].
  rewrite IH; [reflexivity | | apply step_no_return; assumption].
  split_state s. cbv [created] in Hlt. clear - Hlt.
  destruct e; act_cases; lia.
Qed.

Lemma removals_at_most_once (n : AudioBufferSourceNode) (evs : list Event)
    (s : State) :
  fresh_ids s -> (removals createPcmBlob n s evs <= 1)%nat.
Proof.
  revert s. induction evs as [|e evs IH]; intros s Hf; [cbn; lia|].
  cbn [removals].
  destruct (step_fresh e Hf) as [Hf' Hle].
  destruct (leaves n s (exec (step e) s)) eqn:El.
  - unfold leaves in El. apply andb_true_iff in El. destruct El as [Hin Hout].
    apply negb_true_iff in Hout.
    rewrite removals_gone; [lia | | exact Hout].
    specialize (Hf n Hin). lia.
  - specialize (IH _ Hf'). lia.
Qed.

Lemma removals_at_least_once (n : AudioBufferSourceNode) (evs : list Event)
    (s : State) :
  Set_has n (sourcesRef s) = true ->
  Set_has n (sourcesRef (exec (run evs) s)) = false ->
  (1 <= removals createPcmBlob n s evs)%nat.
Proof.
  revert s. induction evs as [|e evs IH]; intros s Hin Hout.
  - cbn in Hout. congruence.
  - cbn [removals]. unfold leaves. rewrite Hin. cbn [andb].
    destruct (Set_has n (sourcesRef (exec (step e) s))) eqn:E.
    + cbn. apply IH; assumption.
    + cbn. lia.
Qed.

Lemma run_fresh (evs : list Event) (s : State) :
  fresh_ids s -> fresh_ids (exec (run evs) s).
Proof.
  revert s. induction evs as [|e evs IH]; intros s H; [exact H|].
  change (exec (run (e :: evs)) s) with (exec (run evs) (exec (step e) s)).
  apply IH. apply step_fresh. exact H.
Qed.

Lemma initial_fresh : fresh_ids initial.
Proof. intros n H. discriminate H. Qed.

Lemma ended_removes (n : AudioBufferSourceNode) (s : State) :
  Set_has n (sourcesRef (exec (step (SourceEnded n)) s)) = false.
Proof.
  split_state s. act_cases; rewrite Set_has_delete, Nat.eqb_refl; reflexivity.
Qed.


(** Every message that carries audio turns the speaking flag on. *)
Lemma step_audio_sets_flag (m : LiveServerMessage) (currentTime : Time)
    (s : State) :
  has_audio m = true ->
  isSpeaking (exec (step (ChannelMessage m currentTime)) s) = true.
Proof. intros Ha. split_state s. act_cases; try congruence; reflexivity. Qed.

(** Nothing else turns it on. *)
Lemma step_flag_set_only_by_audio (e : Event) (s : State) :
  isSpeaking s = false -> isSpeaking (exec (step e) s) = true ->
  exists m currentTime, e = ChannelMessage m currentTime /\ has_audio m = true.
Proof.
  split_state s. destruct e; act_cases; try congruence.
  all: intros _ _; eexists; eexists; split; [reflexivity | assumption].
Qed.

(** The flag goes off only in the handlers that call [setIsSpeaking(false)]. *)
Lemma step_flag_cleared_by (e : Event) (s : State) :
  isSpeaking s = true -> isSpeaking (exec (step e) s) = false ->
  may_clear_speaking s e.
Proof.
  split_state s.
  destruct e; cbv [may_clear_speaking tears_down]; act_cases;
    try congruence; intros _ _; try exact I; try reflexivity;
    try (split; assumption); try (split; reflexivity); try assumption.
  all: apply eqb_status_true; assumption.
Qed.

(** A message with the interruption signal empties the set and clears the
    flag: at once when it carries no audio, after the decode when it does. *)
Lemma step_interruption (m : LiveServerMessage) (currentTime : Time)
    (audioBuffer : AudioBuffer) (s : State) :
  interrupted m = true ->
  (has_audio m = false ->
   sourcesRef (exec (step (ChannelMessage m currentTime)) s) = [] /\
   isSpeaking (exec (step (ChannelMessage m currentTime)) s) = false) /\
  sourcesRef (exec (step (ChunkDecoded m audioBuffer)) s) = [] /\
  isSpeaking (exec (step (ChunkDecoded m audioBuffer)) s) = false.
Proof.
  intros Hi. split_state s. split; [intros Ha|];
    act_cases; try congruence; split; reflexivity.
Qed.

(** A decoded chunk without the signal adds its node and leaves the flag. *)
Lemma step_decoded_adds (m : LiveServerMessage) (audioBuffer : AudioBuffer)
    (s : State) :
  interrupted m = false ->
  sourcesRef (exec (step (ChunkDecoded m audioBuffer)) s) =
    Set_add (created s) (sourcesRef s) /\
  isSpeaking (exec (step (ChunkDecoded m audioBuffer)) s) = isSpeaking s.
Proof.
  intros Hi. split_state s. act_cases; try congruence. split; reflexivity.
Qed.

(** The end of a node deletes it and clears the flag when nothing is left. *)
Lemma step_ended (n : AudioBufferSourceNode) (s : State) :
  sourcesRef (exec (step (SourceEnded n)) s) = Set_delete n (sourcesRef s) /\
  isSpeaking (exec (step (SourceEnded n)) s) =
    (if Nat.eqb (List.length (Set_delete n (sourcesRef s))) 0 then false
     else isSpeaking s).
Proof.
  split_state s. act_cases; try (split; reflexivity);
    exfalso; cbv in Heqb, Heqb0; congruence.
Qed.

(** C7 (as amended). The speaking flag is turned on by every message that
    carries audio and by nothing else. It is turned off only by the end of a
    node, by a message that carries the interruption signal or by a
    teardown, and only in a step that ends with an empty active set; every
    step that empties a non-empty set ends with the flag off. An
    interruption empties the set and clears the flag; a decoded chunk
    without it adds its node; the end of a node deletes it and clears the
    flag exactly when no node is left. A node leaves the set only at its own
    ['ended'] event, at an interruption or at a teardown, at most once, and
    exactly once by the time its ['ended'] event has been handled. *)
Theorem C7_speaking_follows_active_set (evs : list Event) (e : Event)
    (n : AudioBufferSourceNode) (m : LiveServerMessage) (currentTime : Time)
    (audioBuffer : AudioBuffer) (s : State) :
  (has_audio m = true ->
   isSpeaking (exec (step (ChannelMessage m currentTime)) s) = true) /\
  (isSpeaking s = false -> isSpeaking (exec (step e) s) = true ->
   exists m' t, e = ChannelMessage m' t /\ has_audio m' = true) /\
  (isSpeaking s = true -> isSpeaking (exec (step e) s) = false ->
   sourcesRef (exec (step e) s) = [] /\ may_clear_speaking s e) /\
  (sourcesRef s <> [] -> sourcesRef (exec (step e) s) = [] ->
   isSpeaking (exec (step e) s) = false) /\
  (interrupted m = true ->
   (has_audio m = false ->
    sourcesRef (exec (step (ChannelMessage m currentTime)) s) = [] /\
    isSpeaking (exec (step (ChannelMessage m currentTime)) s) = false) /\
   sourcesRef (exec (step (ChunkDecoded m audioBuffer)) s) = [] /\
   isSpeaking (exec (step (ChunkDecoded m audioBuffer)) s) = false) /\
  (interrupted m = false ->
   sourcesRef (exec (step (ChunkDecoded m audioBuffer)) s) =
     Set_add (created s) (sourcesRef s) /\
   isSpeaking (exec (step (ChunkDecoded m audioBuffer)) s) = isSpeaking s) /\
  (sourcesRef (exec (step (SourceEnded n)) s) = Set_delete n (sourcesRef s) /\
   isSpeaking (exec (step (SourceEnded n)) s) =
     (if Nat.eqb (List.length (Set_delete n (sourcesRef s))) 0 then false
      else isSpeaking s)) /\
  (leaves n s (exec (step e) s) = true -> ends_playback n s e) /\
  (removals createPcmBlob n initial evs <= 1)%nat /\
  (Set_has n (sourcesRef (exec (run evs) initial)) = true ->
   removals createPcmBlob n initial (evs ++ [SourceEnded n]) = 1%nat).
Proof.
  split; [apply step_audio_sets_flag|].
  split; [apply step_flag_set_only_by_audio|].
  split; [intros H1 H2; split;
          [apply step_speaking_cleared | apply step_flag_cleared_by];
          assumption|].
  split; [apply step_set_emptied|].
  split; [apply step_interruption|].
  split; [apply step_decoded_adds|].
  split; [apply step_ended|].
  split; [apply step_leaves|].
  split; [apply removals_at_most_once, initial_fresh|].
  intros Hin.
  pose proof (removals_at_most_once n (evs ++ [SourceEnded n]) initial_fresh)
    as Hle.
  rewrite removals_app in *.
  assert (1 <= removals createPcmBlob n (exec (run evs) initial)
                 [SourceEnded n])%nat.
  { apply removals_at_least_once; [exact Hin|]. apply ended_removes. }
  lia.
Qed.

(** ** Capture *)

Lemma sent_app (a b : list Call) : sent (a ++ b) = sent a ++ sent b.
Proof. apply flat_map_app. Qed.

Lemma sent_map_none (A : Type) (g : A -> Call) (l : list A) :
  (forall x, sent [g x] = []) -> sent (map g l) = [].
Proof.
  intros H. induction l as [|x l IH]; [reflexivity|].
  change (map g (x :: l)) with ([g x] ++ map g l).
  rewrite sent_app, H, IH. reflexivity.
Qed.

Lemma sent_cleanup (s : State) : sent (cleanup_calls s) = [].
Proof.
  unfold cleanup_calls. rewrite !sent_app.
  destruct (rafRef s) as [[|h]|], (sessionRef s), (streamRef s),
    (inputAudioCtxRef s), (outputAudioCtxRef s); cbn [opt_calls truthy_handle];
    rewrite ?sent_map_none by reflexivity; reflexivity.
Qed.





(** The capture callback: nothing while [isMutedRef] is on, otherwise one
    callback registered on the session promise for the converted block; the
    state is untouched. *)
Lemma onaudioprocess_run (inputData : Float32Array) (s : State) :
  onaudioprocess createPcmBlob inputData s =
  (tt, s,
   if isMutedRef s then []
   else [SessionPromiseThen (createPcmBlob inputData)]).
Proof. split_state s. act_cases; reflexivity. Qed.










End Runs.

(** C7, at a concrete input: the one node of a live session ends; the step
    turns the speaking flag off, the set is empty, and the node has left the
    set once. *)
Lemma C7_witness :
  (sourcesRef (exec (step example_createPcmBlob (SourceEnded 0%nat))
                    after_one_chunk) = [] /\
   may_clear_speaking after_one_chunk (SourceEnded 0%nat)) /\
  removals example_createPcmBlob 0%nat initial
    ((session_events ++
      [ChannelMessage chunk 0; ChunkDecoded chunk one_second]) ++
     [SourceEnded 0%nat]) = 1%nat.
Proof.
  pose proof (@C7_speaking_follows_active_set example_createPcmBlob
                (session_events ++
                 [ChannelMessage chunk 0; ChunkDecoded chunk one_second])
                (SourceEnded 0%nat) 0%nat chunk 0 one_second after_one_chunk)
    as (_ & _ & H3 & _ & _ & _ & _ & _ & _ & H10).
  split.
  - apply H3; vm_compute; reflexivity.
  - apply H10. vm_compute. reflexivity.
Defined.

(** C7 (as stated, refuted). A live session is closed by the channel and an
    audio message still arrives: with no output context left, the handler
    turns the speaking flag on and schedules nothing. The interruption that
    follows turns the flag off in a step in which the active set does not
    become empty: it was empty before. *)
Lemma C7_flag_cleared_with_set_already_empty :
  isSpeaking (exec (run example_createPcmBlob late_audio) initial) = true /\
  sourcesRef (exec (run example_createPcmBlob late_audio) initial) = [] /\
  isSpeaking
    (exec (step example_createPcmBlob (ChannelMessage barge_in 0))
          (exec (run example_createPcmBlob late_audio) initial)) = false /\
  ~ speaking_clears_exactly_when_set_empties example_createPcmBlob.
Proof.
  split; [vm_compute; reflexivity|]. split; [vm_compute; reflexivity|].
  split; [vm_compute; reflexivity|].
  intros H. destruct (H late_audio (ChannelMessage barge_in 0)) as [H1 _].
  destruct H1 as [Hne _]; [split; vm_compute; reflexivity|].
  apply Hne. vm_compute. reflexivity.
Qed.



(** ** Sample conversion *)

Ltac q_le := unfold Qle; cbn; lia.

Lemma clamp16_range (v : Q) :
  (-32768 <= clamp16 v)%Q /\ (clamp16 v <= 32767)%Q.
Proof.
  unfold clamp16. destruct (Qle_bool v (-32768)) eqn:E1.
  - split; [apply Qle_refl | q_le].
  - destruct (Qle_bool 32767 v) eqn:E2.
    + split; [q_le | apply Qle_refl].
    + split.
      * apply Qlt_le_weak, Qnot_le_lt. intros H.
        apply Qle_bool_iff in H. congruence.
      * apply Qlt_le_weak, Qnot_le_lt. intros H.
        apply Qle_bool_iff in H. congruence.
Qed.

Lemma clamp16_sign (v : Q) :
  ((0 <= v)%Q -> (0 <= clamp16 v)%Q) /\ ((v <= 0)%Q -> (clamp16 v <= 0)%Q).
Proof.
  unfold clamp16. split; intros H.
  - destruct (Qle_bool v (-32768)) eqn:E1.
    + apply Qle_bool_iff in E1. exfalso.
      apply (Qle_trans _ _ _ H) in E1. revert E1. q_le.
    + destruct (Qle_bool 32767 v); [q_le | exact H].
  - destruct (Qle_bool v (-32768)) eqn:E1; [q_le|].
    destruct (Qle_bool 32767 v) eqn:E2; [|exact H].
    apply Qle_bool_iff in E2. exfalso.
    apply (Qle_trans _ _ _ E2) in H. revert H. q_le.
Qed.

Lemma clamp16_inside (v : Q) :
  (-32768 < v)%Q -> (v < 32767)%Q -> clamp16 v = v.
Proof.
  intros H1 H2. unfold clamp16.
  destruct (Qle_bool v (-32768)) eqn:E1.
  - apply Qle_bool_iff in E1. exfalso. exact (Qlt_not_le _ _ H1 E1).
  - destruct (Qle_bool 32767 v) eqn:E2; [|reflexivity].
    apply Qle_bool_iff in E2. exfalso. exact (Qlt_not_le _ _ H2 E2).
Qed.

Lemma rem_nonpos_bound (n d : Z) :
  0 < d -> n <= 0 -> - d < Z.rem n d <= 0.
Proof.
  intros Hd Hn.
  pose proof (Z.rem_nonpos n d ltac:(lia) Hn).
  pose proof (Z.rem_bound_abs n d ltac:(lia)). lia.
Qed.

Lemma truncate_range (v : Q) :
  (-32768 <= v)%Q -> (v <= 32767)%Q -> -32768 <= truncate v <= 32767.
Proof.
  destruct v as [n d]. unfold Qle, truncate. cbn [Qnum Qden]. intros H1 H2.
  assert (Hd : 0 < Z.pos d) by lia.
  pose proof (Z.quot_rem' n (Z.pos d)) as E.
  destruct (Z_le_gt_dec 0 n) as [Hn | Hn].
  - pose proof (Z.rem_bound_pos n (Z.pos d) Hn Hd).
    pose proof (Z.quot_pos n (Z.pos d) Hn Hd). nia.
  - assert (Hn0 : n <= 0) by lia.
    pose proof (@rem_nonpos_bound n (Z.pos d) Hd Hn0).
    nia.
Qed.

Lemma truncate_sign (v : Q) :
  ((0 <= v)%Q -> 0 <= truncate v) /\ ((v <= 0)%Q -> truncate v <= 0).
Proof.
  destruct v as [n d]. unfold Qle, truncate. cbn [Qnum Qden].
  assert (Hd : 0 < Z.pos d) by lia. split; intros H.
  - apply Z.quot_pos; lia.
  - pose proof (Z.quot_rem' n (Z.pos d)) as E.
    assert (Hn0 : n <= 0) by lia.
    pose proof (@rem_nonpos_bound n (Z.pos d) Hd Hn0).
    nia.
Qed.

Lemma Int16_store_inside (z : Z) :
  -32768 <= z <= 32767 -> Int16_store z = z.
Proof. intros H. unfold Int16_store. rewrite Z.mod_small; lia. Qed.

Lemma scale_sign (fullScale : positive) (x : Q) :
  ((0 <= x)%Q -> (0 <= x * inject_Z (Z.pos fullScale))%Q) /\
  ((x <= 0)%Q -> (x * inject_Z (Z.pos fullScale) <= 0)%Q).
Proof.
  destruct x as [n d]. unfold Qle, Qmult, inject_Z. cbn [Qnum Qden].
  split; intros H; nia.
Qed.

(** C9. With the clamp placed before the truncation, the 16-bit value
    stored for a sample is the truncated clamped value itself: the store
    never wraps. For every rational sample and every positive full-scale
    factor the result lies in [-32768, 32767], a non-negative sample gives a
    non-negative result and a non-positive sample a non-positive one; a
    sample whose scaled value is inside the range is only truncated. *)
Theorem C9_clamped_conversion_never_wraps (fullScale : positive)
    (sample : Q) :
  sample_to_int16 fullScale sample =
    truncate (clamp16 (sample * inject_Z (Z.pos fullScale))) /\
  -32768 <= sample_to_int16 fullScale sample <= 32767 /\
  ((0 <= sample)%Q -> 0 <= sample_to_int16 fullScale sample) /\
  ((sample <= 0)%Q -> sample_to_int16 fullScale sample <= 0) /\
  ((-32768 < sample * inject_Z (Z.pos fullScale))%Q ->
   (sample * inject_Z (Z.pos fullScale) < 32767)%Q ->
   sample_to_int16 fullScale sample =
     truncate (sample * inject_Z (Z.pos fullScale))).
Proof.
  destruct (clamp16_range (sample * inject_Z (Z.pos fullScale))) as [Hlo Hhi].
  pose proof (@truncate_range _ Hlo Hhi) as Hr.
  assert (E : sample_to_int16 fullScale sample =
              truncate (clamp16 (sample * inject_Z (Z.pos fullScale)))).
  { unfold sample_to_int16. apply Int16_store_inside. exact Hr. }
  rewrite E. split; [reflexivity|]. split; [exact Hr|].
  split; [intros H; apply truncate_sign, clamp16_sign, scale_sign, H|].
  split; [intros H; apply truncate_sign, clamp16_sign, scale_sign, H|].
  intros H1 H2. rewrite clamp16_inside by assumption. reflexivity.
Qed.

(** C9, at concrete inputs: full scale 32768; the sample 1 saturates at
    32767 and the sample -3/2 at -32768, where the conversion without the
    clamp wraps to the opposite sign. *)
Lemma C9_witness :
  0 <= sample_to_int16 32768 1 /\
  sample_to_int16 32768 (- (3 # 2)) <= 0.
Proof.
  split.
  - apply (C9_clamped_conversion_never_wraps 32768 1). q_le.
  - apply (C9_clamped_conversion_never_wraps 32768 (- (3 # 2))). q_le.
Defined.

Example clamp_saturates :
  sample_to_int16 32768 1 = 32767 /\
  sample_to_int16 32768 (- (3 # 2)) = -32768 /\
  sample_to_int16 32768 (1 # 2) = 16384.
Proof. repeat split. Qed.

Example no_clamp_wraps :
  sample_to_int16_unclamped 32768 1 = -32768 /\
  sample_to_int16_unclamped 32768 (- (3 # 2)) = 16384.
Proof. repeat split. Qed.

(** * Further properties of the code *)

(** ** The analysis loop *)

Lemma nth_is_byte (dataArray : list Z) (i : nat) :
  Forall is_byte dataArray -> is_byte (nth i dataArray 0).
Proof.
  intros H. revert i. induction H as [|b l Hb _ IH]; intros i.
  - destruct i; unfold is_byte; cbn; lia.
  - destruct i; [exact Hb | apply IH].
Qed.

Lemma fold_bins_bound (dataArray : list Z) (idx : list nat) (acc : Z) :
  Forall is_byte dataArray ->
  acc <= fold_left (fun a i => a + nth i dataArray 0) idx acc
      <= acc + 255 * Z.of_nat (List.length idx).
Proof.
  intros H. revert acc. induction idx as [|i idx IH]; intros acc.
  - cbn. lia.
  - cbn [fold_left List.length].
    pose proof (nth_is_byte i H) as Hb. unfold is_byte in Hb.
    specialize (IH (acc + nth i dataArray 0)). lia.
Qed.

Lemma bins_sum_bound (dataArray : list Z) :
  Forall is_byte dataArray -> 0 <= bins_sum dataArray <= 8160.
Proof.
  intros H. unfold bins_sum.
  pose proof (fold_bins_bound (seq 0 bufferLength) 0 H) as B.
  rewrite length_seq in B. unfold bufferLength in *.
  change (Z.of_nat 32) with 32 in B. lia.
Qed.

(** The three normalisations of [update], for a sum of 32 bytes. *)
Lemma normalised (z : Z) :
  0 <= z <= 8160 ->
  (0 <= inject_Z z / inject_Z (Z.of_nat bufferLength) / 255 <= 1)%Q /\
  (0 <= inject_Z z / inject_Z (Z.of_nat bufferLength) / 512 <= 1 # 2)%Q.
Proof.
  intros H. unfold bufferLength.
  change (Z.of_nat 32) with 32.
  unfold Qle, Qdiv, Qmult, Qinv, inject_Z. cbn. lia.
Qed.

(** What one run of [update] leaves in the state. *)
Lemma update_run (dataArray : list Z) (handle : FrameHandle) (s : State) :
  update dataArray handle s =
  (tt,
   set_rafRef (Some handle)
     (setIntensity
        (if isMutedRef s
         then (if analysisIsSpeaking s
               then bins_average dataArray / 512 else 0)%Q
         else (bins_average dataArray / 255)%Q) s),
   []).
Proof.
  split_state s. unfold bins_average, bins_sum. act_unfold. reflexivity.
Qed.

Lemma update_intensity_range (dataArray : list Z) (handle : FrameHandle)
    (s : State) :
  Forall is_byte dataArray ->
  (0 <= intensity (exec (update dataArray handle) s) <= 1)%Q /\
  (isMutedRef s = true ->
   (intensity (exec (update dataArray handle) s) <= 1 # 2)%Q).
Proof.
  intros H. pose proof (bins_sum_bound H) as B.
  destruct (normalised B) as [N1 N2].
  unfold exec. rewrite update_run. cbn [fst snd].
  split_state s. cbv [set_rafRef setIntensity intensity isMutedRef
                      analysisIsSpeaking status errorMessage isSpeaking
                      isMuted inputAudioCtxRef outputAudioCtxRef streamRef
                      sourcesRef nextStartTimeRef sessionRef rafRef created].
  unfold bins_average. split.
  - destruct mr; [destruct an|]; try exact N1.
    + destruct N2 as [N2 N3]. split; [exact N2|].
      eapply Qle_trans; [exact N3 | q_le].
    + split; q_le.
  - intros ->. destruct an; [apply N2 | q_le].
Qed.

(** X1. One run of [update] on byte data leaves an intensity between 0 and
    1, and at most 1/2 while the ref says muted; it stores the new frame
    handle, touches nothing else and calls nothing. *)
Theorem X1_update_normalises_intensity (dataArray : list Z)
    (handle : FrameHandle) (s : State) :
  Forall is_byte dataArray ->
  (0 <= intensity (exec (update dataArray handle) s) <= 1)%Q /\
  (isMutedRef s = true ->
   (intensity (exec (update dataArray handle) s) <= 1 # 2)%Q) /\
  exec (update dataArray handle) s =
    set_rafRef (Some handle)
      (setIntensity (intensity (exec (update dataArray handle) s)) s) /\
  calls (update dataArray handle) s = [].
Proof.
  intros H. destruct (update_intensity_range handle s H) as [R1 R2].
  split; [exact R1|]. split; [exact R2|].
  unfold exec, calls. rewrite update_run. cbn [fst snd].
  split_state s. split; reflexivity.
Qed.

(** X1, at a concrete input: a full-level frame in a live, unmuted
    session. *)
Lemma X1_witness :
  (0 <= intensity (exec (update loud_frame 8%nat) session_open) <= 1)%Q.
Proof.
  apply (@X1_update_normalises_intensity loud_frame 8%nat session_open).
  unfold loud_frame. repeat constructor; unfold is_byte; lia.
Defined.

(** ** Invariants of the event loop *)

Ltac status_contra :=
  match goal with
  | H : ConnectionStatus_eqb _ _ = _ |- _ => cbv in H; discriminate H
  end.

Lemma view_bounds (i : Q) :
  (0 <= i)%Q -> (i <= 1)%Q ->
  (10 <= 20 - i * 10)%Q /\ (20 - i * 10 <= 20)%Q /\
  (1 <= 1 + i * (1 # 2))%Q /\ (1 + i * (1 # 2) <= 3 # 2)%Q.
Proof.
  destruct i as [n d].
  unfold Qle, Qminus, Qplus, Qmult, Qopp. cbn [Qnum Qden].
  intros H0 H1. repeat split; nia.
Qed.

Section Lifecycle.

Variable createPcmBlob : Float32Array -> Blob.

Local Abbreviation step := (step createPcmBlob).
Local Abbreviation run := (run createPcmBlob).

Lemma step_intensity (e : Event) (s : State) :
  byte_frames e -> intensity_in_range s ->
  intensity_in_range (exec (step e) s).
Proof.
  intros Hb Hr.
  assert (Z0 : intensity_in_range (exec cleanup s)).
  { rewrite cleanup_exec. split; q_le. }
  destruct e; cbn [byte_frames] in Hb.
  1,3-12,14: split_state s; unfold intensity_in_range in *;
    rewrite ?cleanup_exec in Z0; act_cases;
    first [exact Hr | exact Z0 | split; q_le].
  - (* MicrophoneGranted *)
    split_state s. destruct ic as [c|].
    + apply (update_intensity_range handle
               (mkState st em sp it mu (Some c) oc (Some stream) so ns se
                        mr rf cr an) Hb).
    + unfold intensity_in_range. act_cases. split; q_le.
  - (* AnimationFrame *)
    apply (update_intensity_range handle s Hb).
Qed.

Lemma run_intensity (evs : list Event) (s : State) :
  Forall byte_frames evs -> intensity_in_range s ->
  intensity_in_range (exec (run evs) s).
Proof.
  intros H. revert s. induction H as [|e evs He _ IH]; intros s Hs.
  - exact Hs.
  - change (exec (run (e :: evs)) s) with (exec (run evs) (exec (step e) s)).
    apply IH, step_intensity; assumption.
Qed.

(** X2. Along every run from the mounted component in which the analyser
    delivers bytes, the intensity stays between 0 and 1; so the orb's
    padding stays between 10 and 20 pixels and the glow's scale between 1
    and 3/2. *)
Theorem X2_orb_geometry_bounded (evs : list Event) :
  Forall byte_frames evs ->
  intensity_in_range (exec (run evs) initial) /\
  (10 <= orb_padding (exec (run evs) initial))%Q /\
  (orb_padding (exec (run evs) initial) <= 20)%Q /\
  (1 <= glow_scale (exec (run evs) initial))%Q /\
  (glow_scale (exec (run evs) initial) <= 3 # 2)%Q.
Proof.
  intros H.
  assert (R : intensity_in_range (exec (run evs) initial)).
  { apply run_intensity; [exact H|]. split; q_le. }
  split; [exact R|]. destruct R as [R0 R1].
  unfold orb_padding, glow_scale. apply view_bounds; assumption.
Qed.

End Lifecycle.

(** X2, at a concrete input: a session that receives a full-level frame. *)
Lemma X2_witness :
  (10 <= orb_padding
           (exec (run example_createPcmBlob
                    (session_events ++ [AnimationFrame loud_frame 8%nat]))
                 initial))%Q.
Proof.
  apply (@X2_orb_geometry_bounded example_createPcmBlob
           (session_events ++ [AnimationFrame loud_frame 8%nat])).
  unfold session_events, loud_frame.
  repeat constructor; unfold is_byte; lia.
Defined.

Section Invariants.

Variable createPcmBlob : Float32Array -> Blob.

Local Abbreviation step := (step createPcmBlob).
Local Abbreviation run := (run createPcmBlob).

Lemma step_lifecycle_invariant (e : Event) (s : State) :
  lifecycle_invariant s -> lifecycle_invariant (exec (step e) s).
Proof.
  split_state s. unfold lifecycle_invariant.
  cbv [status isMuted isMutedRef inputAudioCtxRef outputAudioCtxRef
       streamRef].
  intros (Hm & Hc & Hd & He).
  destruct e; destruct st; try congruence; act_cases; try status_contra;
    repeat split; try congruence; try discriminate;
    try (intros; apply Hd; congruence);
    try (intros Hmu; specialize (Hm Hmu); congruence).
  exfalso. destruct (Hd eq_refl) as [Hx _]. discriminate Hx.
Qed.

Lemma initial_lifecycle_invariant : lifecycle_invariant initial.
Proof. repeat split; cbn; congruence. Qed.

Lemma run_lifecycle_invariant (evs : list Event) (s : State) :
  lifecycle_invariant s -> lifecycle_invariant (exec (run evs) s).
Proof.
  revert s. induction evs as [|e evs IH]; intros s H; [exact H|].
  change (exec (run (e :: evs)) s) with (exec (run evs) (exec (step e) s)).
  apply IH, step_lifecycle_invariant, H.
Qed.

Lemma reachable_invariant (evs : list Event) :
  lifecycle_invariant (exec (run evs) initial).
Proof. apply run_lifecycle_invariant, initial_lifecycle_invariant. Qed.

(** X4. In every state reached from the mounted component the mute state
    variable and the mute ref cell agree, and the mute flag is on only while
    the status is connected. *)
Theorem X4_muted_only_while_connected (evs : list Event) :
  isMuted (exec (run evs) initial) = isMutedRef (exec (run evs) initial) /\
  (isMuted (exec (run evs) initial) = true ->
   status (exec (run evs) initial) = connected) /\
  (status (exec (run evs) initial) <> connected ->
   isMutedRef (exec (run evs) initial) = false).
Proof.
  destruct (reachable_invariant evs) as (Hm & Hc & _ & _).
  split; [exact Hc|]. split; [exact Hm|].
  intros Hn. rewrite <- Hc.
  destruct (isMuted (exec (run evs) initial)); [|reflexivity].
  exfalso. apply Hn, Hm. reflexivity.
Qed.

(** X5. In every state reached from the mounted component, a status of
    disconnected means that no audio context and no microphone stream is
    held and that the mute flag is off. *)
Theorem X5_disconnected_holds_no_resources (evs : list Event) :
  status (exec (run evs) initial) = disconnected ->
  inputAudioCtxRef (exec (run evs) initial) = None /\
  outputAudioCtxRef (exec (run evs) initial) = None /\
  streamRef (exec (run evs) initial) = None /\
  isMuted (exec (run evs) initial) = false /\
  isMutedRef (exec (run evs) initial) = false.
Proof.
  intros Hs. destruct (reachable_invariant evs) as (Hm & Hc & Hd & _).
  destruct (Hd Hs) as (H1 & H2 & H3).
  split; [exact H1|]. split; [exact H2|]. split; [exact H3|].
  assert (E : isMuted (exec (run evs) initial) = false).
  { destruct (isMuted (exec (run evs) initial)); [|reflexivity].
    specialize (Hm eq_refl). congruence. }
  split; [exact E | rewrite <- Hc; exact E].
Qed.

(** X14. In every state reached from the mounted component the badge reads
    "Muted" exactly when the footer reads "Input Muted"; where the mute
    button is not rendered the footer reads "Mic Active", and it does so in a
    disconnected component, which holds no microphone stream. *)
Theorem X14_badge_and_footer_agree (evs : list Event) :
  (badge_text (exec (run evs) initial) = "Muted"%string <->
   footer_text (exec (run evs) initial) = "Input Muted"%string) /\
  (mute_button_rendered (exec (run evs) initial) = false ->
   footer_text (exec (run evs) initial) = "Mic Active"%string) /\
  (status (exec (run evs) initial) = disconnected ->
   footer_text (exec (run evs) initial) = "Mic Active"%string /\
   streamRef (exec (run evs) initial) = None).
Proof.
  destruct (reachable_invariant evs) as (Hm & _ & Hd & _).
  unfold badge_text, footer_text, mute_button_rendered.
  destruct (isMuted (exec (run evs) initial)) eqn:Emu.
  - rewrite (Hm eq_refl) in *. cbn. split; [split; reflexivity|].
    split; [discriminate|]. intros H. discriminate H.
  - rewrite andb_false_r. split.
    + split; [|discriminate].
      destruct (status (exec (run evs) initial)); cbn; discriminate.
    + split; [reflexivity|]. intros H. split; [reflexivity | apply Hd, H].
Qed.

(** X15. In every disconnected state reached from the mounted component, a
    message that carries audio only turns the speaking flag on: reading the
    clock of the missing output context throws, so nothing is scheduled,
    nothing is called, and an interruption signal in the same message is not
    acted on. *)
Theorem X15_audio_after_teardown (evs : list Event) (m : LiveServerMessage)
    (currentTime : Time) (audioBuffer : AudioBuffer) :
  status (exec (run evs) initial) = disconnected ->
  has_audio m = true ->
  onmessage_begin m currentTime (exec (run evs) initial) =
    (Threw, setIsSpeaking true (exec (run evs) initial), []) /\
  exec (onmessage m currentTime audioBuffer) (exec (run evs) initial) =
    setIsSpeaking true (exec (run evs) initial) /\
  calls (step (ChannelMessage m currentTime)) (exec (run evs) initial) = [].
Proof.
  intros Hs Ha. destruct (reachable_invariant evs) as (_ & _ & Hd & _).
  destruct (Hd Hs) as (_ & Ho & _).
  remember (exec (run evs) initial) as s eqn:Es. clear Es Hd Hs.
  split_state s. cbv [outputAudioCtxRef] in Ho. subst oc.
  assert (E : onmessage_begin m currentTime
                (mkState st em sp it mu ic None sr so ns se mr rf cr an) =
              (Threw,
               setIsSpeaking true
                 (mkState st em sp it mu ic None sr so ns se mr rf cr an),
               [])).
  { unfold onmessage_begin. rewrite Ha. act_unfold. reflexivity. }
  split; [exact E|]. split.
  - unfold exec, onmessage, bind. rewrite E. reflexivity.
  - change (step (ChannelMessage m currentTime))
      with (bind (onmessage_begin m currentTime) (fun _ => ret tt)).
    unfold calls, bind. rewrite E. reflexivity.
Qed.

Lemma step_keeps_closure (e : Event) (s : State) :
  ~ is_click_connection e ->
  analysisIsSpeaking (exec (step e) s) = analysisIsSpeaking s.
Proof.
  intros Hn. split_state s. destruct e; cbn in Hn; try (exfalso; exact (Hn I));
    act_cases; reflexivity.
Qed.

Lemma run_keeps_closure (evs : list Event) (s : State) :
  Forall (fun e => ~ is_click_connection e) evs ->
  analysisIsSpeaking (exec (run evs) s) = analysisIsSpeaking s.
Proof.
  intros H. revert s. induction H as [|e evs He _ IH]; intros s.
  - reflexivity.
  - change (exec (run (e :: evs)) s) with (exec (run evs) (exec (step e) s)).
    rewrite IH. apply step_keeps_closure, He.
Qed.

Lemma click_after_cleanup (s0 : State) (inCtx outCtx : AudioContext) :
  analysisIsSpeaking
    (exec (step (ClickConnection inCtx outCtx)) (exec cleanup s0)) = false /\
  status (exec (step (ClickConnection inCtx outCtx)) (exec cleanup s0))
    = connecting.
Proof.
  rewrite cleanup_exec. split_state s0. act_cases; try status_contra.
  split; reflexivity.
Qed.

(** X3. The analysis loop sees the [isSpeaking] of the render in which
    [connect] was called, not the live flag. In a session started right
    after a teardown that value is false for the whole session: whatever
    events follow, short of another click on the main button, a frame
    processed while muted sets the intensity to zero, also while the
    assistant is speaking. *)
Theorem X3_muted_intensity_ignores_speaking (s0 : State)
    (inCtx outCtx : AudioContext) (evs : list Event) (dataArray : list Z)
    (handle : FrameHandle) :
  Forall (fun e => ~ is_click_connection e) evs ->
  isMutedRef
    (exec (run (ClickConnection inCtx outCtx :: evs)) (exec cleanup s0))
    = true ->
  intensity
    (exec (step (AnimationFrame dataArray handle))
       (exec (run (ClickConnection inCtx outCtx :: evs)) (exec cleanup s0)))
    = 0%Q.
Proof.
  intros Hev Hmu. rewrite run_cons in *.
  pose proof (run_keeps_closure
                (exec (step (ClickConnection inCtx outCtx)) (exec cleanup s0))
                Hev) as Hc.
  rewrite (proj1 (click_after_cleanup s0 inCtx outCtx)) in Hc.
  remember (exec (run evs)
              (exec (step (ClickConnection inCtx outCtx)) (exec cleanup s0)))
    as s eqn:Es. clear Es.
  change (step (AnimationFrame dataArray handle))
    with (update dataArray handle).
  unfold exec. rewrite update_run. cbn [fst snd].
  split_state s. cbv [isMutedRef analysisIsSpeaking] in Hmu, Hc. subst mr an.
  reflexivity.
Qed.

End Invariants.

(** X3, at a concrete input: the user has muted and the assistant is
    speaking; a full-level frame still sets the intensity to zero. *)
Lemma X3_witness :
  isSpeaking
    (exec (run example_createPcmBlob
             (ClickConnection 1%nat 2%nat :: muted_while_speaking))
          (exec cleanup initial)) = true /\
  intensity
    (exec (step example_createPcmBlob (AnimationFrame loud_frame 8%nat))
       (exec (run example_createPcmBlob
                (ClickConnection 1%nat 2%nat :: muted_while_speaking))
             (exec cleanup initial))) = 0%Q.
Proof.
  split; [vm_compute; reflexivity|].
  refine (@X3_muted_intensity_ignores_speaking example_createPcmBlob initial
            1%nat 2%nat muted_while_speaking loud_frame 8%nat _ _).
  - unfold muted_while_speaking. repeat constructor; intros H; exact H.
  - vm_compute. reflexivity.
Defined.

(** X5, at a concrete input: after a channel error in a live session. *)
Lemma X5_witness :
  streamRef
    (exec (run example_createPcmBlob (session_events ++ [ChannelError]))
          initial) = None.
Proof.
  assert (H : status
                (exec (run example_createPcmBlob
                         (session_events ++ [ChannelError])) initial)
              = disconnected) by (vm_compute; reflexivity).
  exact (proj1 (proj2 (proj2
    (@X5_disconnected_holds_no_resources example_createPcmBlob
       (session_events ++ [ChannelError]) H)))).
Defined.

(** X4, at a concrete input: muted in a live session. *)
Lemma X4_witness :
  status
    (exec (run example_createPcmBlob (session_events ++ [ClickMute]))
          initial) = connected.
Proof.
  assert (H : isMuted
                (exec (run example_createPcmBlob
                         (session_events ++ [ClickMute])) initial)
              = true) by (vm_compute; reflexivity).
  exact (proj1 (proj2
    (@X4_muted_only_while_connected example_createPcmBlob
       (session_events ++ [ClickMute]))) H).
Defined.

(** X14, at a concrete input: the mounted component. *)
Lemma X14_witness :
  footer_text (exec (run example_createPcmBlob []) initial)
    = "Mic Active"%string /\
  streamRef (exec (run example_createPcmBlob []) initial) = None.
Proof.
  exact (proj2 (proj2 (@X14_badge_and_footer_agree example_createPcmBlob []))
           eq_refl).
Defined.

(** X15, at a concrete input: an audio chunk that arrives after the channel
    has closed. *)
Lemma X15_witness :
  calls (step example_createPcmBlob (ChannelMessage chunk 0))
        (exec (run example_createPcmBlob (session_events ++ [ChannelClose]))
              initial) = [].
Proof.
  assert (H : status
                (exec (run example_createPcmBlob
                         (session_events ++ [ChannelClose])) initial)
              = disconnected) by (vm_compute; reflexivity).
  exact (proj2 (proj2
    (@X15_audio_after_teardown example_createPcmBlob
       (session_events ++ [ChannelClose]) chunk 0 one_second H eq_refl))).
Defined.

(** ** Resources *)

Lemma extract_map_none (A B : Type) (f : Call -> list B) (g : A -> Call)
    (l : list A) :
  (forall x, f (g x) = []) -> flat_map f (map g l) = [].
Proof.
  intros H. induction l as [|x l IH]; [reflexivity|].
  cbn. rewrite H, IH. reflexivity.
Qed.

Lemma extract_map_all (A : Type) (f : Call -> list A) (g : A -> Call)
    (l : list A) :
  (forall x, f (g x) = [x]) -> flat_map f (map g l) = l.
Proof.
  intros H. induction l as [|x l IH]; [reflexivity|].
  cbn. rewrite H, IH. reflexivity.
Qed.

Ltac cleanup_extract none_of all_of :=
  unfold cleanup_calls; rewrite !flat_map_app;
  match goal with
  | |- context [rafRef ?s] =>
      destruct (rafRef s) as [[|?]|], (sessionRef s), (streamRef s),
        (inputAudioCtxRef s), (outputAudioCtxRef s)
  end;
  cbn [opt_calls truthy_handle flat_map app];
  rewrite ?(extract_map_none _ none_of) by reflexivity;
  rewrite ?(extract_map_all _ all_of) by reflexivity;
  rewrite ?app_nil_r; reflexivity.

(** What one teardown stops and closes: the active nodes, the tracks of the
    held stream and the held contexts, each once. *)
Lemma cleanup_accounting (s : State) :
  stopped (cleanup_calls s) = sourcesRef s /\
  tracks_stopped (cleanup_calls s) = held_tracks s /\
  contexts_closed (cleanup_calls s) = held_contexts s.
Proof.
  split; [|split].
  - unfold stopped. cleanup_extract TrackStop SourceStop.
  - unfold tracks_stopped, held_tracks. cleanup_extract SourceStop TrackStop.
  - unfold contexts_closed, held_contexts.
    unfold cleanup_calls; rewrite !flat_map_app.
    destruct (rafRef s) as [[|?]|], (sessionRef s), (streamRef s),
      (inputAudioCtxRef s), (outputAudioCtxRef s);
      cbn [opt_calls truthy_handle flat_map app];
      rewrite ?(extract_map_none _ TrackStop) by reflexivity;
      rewrite ?(extract_map_none _ SourceStop) by reflexivity;
      rewrite ?app_nil_r; reflexivity.
Qed.

Section Resources.

Variable createPcmBlob : Float32Array -> Blob.

Local Abbreviation step := (step createPcmBlob).
Local Abbreviation run := (run createPcmBlob).

(** Every teardown trigger runs [cleanup] on a state that differs from the
    current one at most in the error message and, for a microphone grant,
    in the stream. *)
Lemma teardown_shape (e : Event) (s : State) :
  tears_down s e ->
  exists s1,
    step e s = (tt, cleanup_state s1, cleanup_calls s1) /\
    sourcesRef s1 = sourcesRef s /\
    inputAudioCtxRef s1 = inputAudioCtxRef s /\
    outputAudioCtxRef s1 = outputAudioCtxRef s /\
    rafRef s1 = rafRef s /\
    sessionRef s1 = sessionRef s /\
    (match e with
     | MicrophoneGranted stream _ _ => streamRef s1 = Some stream
     | _ => streamRef s1 = streamRef s
     end) /\
    (match e with
     | ChannelError | ConnectFailed _ | MicrophoneGranted _ _ _ =>
         error_shown s1 = true
     | _ => errorMessage s1 = errorMessage s
     end).
Proof.
  split_state s. destruct e; cbn [tears_down]; cbv [status inputAudioCtxRef];
    intros H; try contradiction; subst.
  - exists (mkState connected em sp it mu ic oc sr so ns se mr rf cr an).
    act_cases; try status_contra. repeat split.
  - exists (mkState st (Some (message_or_default TypeError_null)) sp it mu
              None oc (Some stream) so ns se mr rf cr an).
    act_cases. repeat split.
  - exists (mkState st (Some (message_or_default err)) sp it mu ic oc sr so
              ns se mr rf cr an).
    act_cases. cbv [error_shown errorMessage].
    rewrite message_or_default_shown. repeat split.
  - exists (mkState st
              (Some "A connection error occurred. Please try again."%string)
              sp it mu ic oc sr so ns se mr rf cr an).
    act_cases. repeat split.
  - exists (mkState st em sp it mu ic oc sr so ns se mr rf cr an).
    act_cases. repeat split.
  - exists (mkState st em sp it mu ic oc sr so ns se mr rf cr an).
    act_cases. repeat split.
Qed.

(** The context refs change only at the start of a connect attempt and at a
    teardown. *)
Lemma step_keeps_contexts (e : Event) (s : State) :
  ~ tears_down s e -> ~ starts_connect s e ->
  inputAudioCtxRef (exec (step e) s) = inputAudioCtxRef s /\
  outputAudioCtxRef (exec (step e) s) = outputAudioCtxRef s.
Proof.
  split_state s. destruct e; cbn [tears_down starts_connect];
    cbv [status inputAudioCtxRef]; intros Ht Hs;
    try (exfalso; exact (Ht I)); act_cases; try (split; reflexivity).
  - exfalso. apply Ht. apply eqb_status_true. assumption.
  - exfalso. apply Hs. split; apply eqb_status_false; assumption.
  - exfalso. apply Ht. reflexivity.
Qed.

(** X6. The audio contexts are never leaked by the component. In every
    state reached from the mounted component, a click that starts a connect
    attempt finds both context refs empty and stores the two new contexts;
    no event other than such a click or a teardown changes the refs; and
    every teardown trigger closes exactly the contexts held, each once, and
    empties both refs. *)
Theorem X6_audio_contexts_not_leaked (evs : list Event) (e : Event)
    (s : State) :
  (starts_connect (exec (run evs) initial) e ->
   held_contexts (exec (run evs) initial) = [] /\
   contexts_closed (calls (step e) (exec (run evs) initial)) = [] /\
   forall inCtx outCtx, e = ClickConnection inCtx outCtx ->
     held_contexts (exec (step e) (exec (run evs) initial))
       = [inCtx; outCtx]) /\
  (~ tears_down s e -> ~ starts_connect s e ->
   held_contexts (exec (step e) s) = held_contexts s /\
   contexts_closed (calls (step e) s) = []) /\
  (tears_down s e ->
   contexts_closed (calls (step e) s) = held_contexts s /\
   held_contexts (exec (step e) s) = []).
Proof.
  split; [|split].
  - intros Hs. destruct (reachable_invariant createPcmBlob evs)
      as (_ & _ & Hd & He).
    remember (exec (run evs) initial) as r eqn:Er. clear Er.
    split_state r. destruct e; cbn [starts_connect] in Hs; try contradiction.
    cbv [status inputAudioCtxRef outputAudioCtxRef streamRef] in Hs, Hd, He.
    destruct Hs as [H1 H2].
    destruct st; try congruence.
    destruct (Hd eq_refl) as (-> & -> & _).
    split; [reflexivity|]. act_cases; try status_contra.
    split; [reflexivity|]. intros i o E. injection E as <- <-. reflexivity.
  - intros Ht Hs. destruct (step_keeps_contexts e s Ht Hs) as [E1 E2].
    unfold held_contexts. rewrite E1, E2. split; [reflexivity|].
    clear E1 E2. split_state s.
    destruct e; cbn [tears_down starts_connect] in Ht, Hs;
      cbv [status inputAudioCtxRef] in Ht, Hs;
      try (exfalso; exact (Ht I)); act_cases;
      try (exfalso; apply Ht; first [reflexivity
                                    | apply eqb_status_true; assumption]);
      try (exfalso; apply Hs; split; apply eqb_status_false; assumption);
      unfold contexts_closed; rewrite ?app_nil_r, ?flat_map_app;
      cbn [flat_map app];
      rewrite ?(extract_map_none _ SourceStop) by reflexivity; reflexivity.
  - intros Ht.
    destruct (teardown_shape e s Ht) as (s1 & E & _ & Hi & Ho & _).
    unfold calls, exec. rewrite E. cbn [fst snd].
    destruct (cleanup_accounting s1) as (_ & _ & Hc). rewrite Hc.
    unfold held_contexts. rewrite Hi, Ho. split; reflexivity.
Qed.

(** X7. A microphone stream that is granted when no input context exists
    is shut down in the same handler: [startAnalysis] throws, the [catch]
    block reports the failure and the teardown stops every track of the new
    stream and drops it; the analysis loop is not started. This is what
    happens in every disconnected state reached from the mounted
    component. *)
Theorem X7_late_microphone_grant_is_stopped (stream : MediaStream)
    (dataArray : list Z) (handle : FrameHandle) (s : State)
    (evs : list Event) :
  (inputAudioCtxRef s = None ->
   tracks_stopped
     (calls (step (MicrophoneGranted stream dataArray handle)) s)
     = getTracks stream /\
   streamRef (exec (step (MicrophoneGranted stream dataArray handle)) s)
     = None /\
   status (exec (step (MicrophoneGranted stream dataArray handle)) s)
     = disconnected /\
   error_shown (exec (step (MicrophoneGranted stream dataArray handle)) s)
     = true /\
   rafRef (exec (step (MicrophoneGranted stream dataArray handle)) s)
     = rafRef s) /\
  (status (exec (run evs) initial) = disconnected ->
   tracks_stopped
     (calls (step (MicrophoneGranted stream dataArray handle))
            (exec (run evs) initial))
     = getTracks stream /\
   streamRef
     (exec (step (MicrophoneGranted stream dataArray handle))
           (exec (run evs) initial)) = None).
Proof.
  assert (G : forall s', inputAudioCtxRef s' = None ->
     tracks_stopped
       (calls (step (MicrophoneGranted stream dataArray handle)) s')
       = getTracks stream /\
     streamRef (exec (step (MicrophoneGranted stream dataArray handle)) s')
       = None /\
     status (exec (step (MicrophoneGranted stream dataArray handle)) s')
       = disconnected /\
     error_shown (exec (step (MicrophoneGranted stream dataArray handle)) s')
       = true /\
     rafRef (exec (step (MicrophoneGranted stream dataArray handle)) s')
       = rafRef s').
  { intros s' Hn.
    destruct (teardown_shape (MicrophoneGranted stream dataArray handle) s'
                Hn) as (s1 & E & _ & _ & _ & Hr & _ & Hst & Herr).
    unfold calls, exec. rewrite E. cbn [fst snd].
    destruct (cleanup_accounting s1) as (_ & Ht & _).
    rewrite Ht. unfold held_tracks. rewrite Hst.
    split; [reflexivity|]. split; [reflexivity|]. split; [reflexivity|].
    split; [exact Herr | exact Hr]. }
  split; [apply G|].
  intros Hs. destruct (reachable_invariant createPcmBlob evs)
    as (_ & _ & Hd & _).
  destruct (Hd Hs) as (Hi & _). destruct (G _ Hi) as (G1 & G2 & _).
  split; assumption.
Qed.

Lemma cleanup_calls_same_refs (s1 s : State) :
  sourcesRef s1 = sourcesRef s -> inputAudioCtxRef s1 = inputAudioCtxRef s ->
  outputAudioCtxRef s1 = outputAudioCtxRef s -> rafRef s1 = rafRef s ->
  sessionRef s1 = sessionRef s -> streamRef s1 = streamRef s ->
  cleanup_calls s1 = cleanup_calls s.
Proof.
  intros H1 H2 H3 H4 H5 H6. unfold cleanup_calls.
  rewrite H1, H2, H3, H4, H5, H6. reflexivity.
Qed.

(** X16. Whatever triggers it (a click on the main button while connected,
    the unmount, a channel error or close, a failure of [connect]), a
    teardown calls [stop] on exactly the nodes of the active set, in order,
    empties the set, clears the speaking flag, drops the stream and sends
    nothing; unless the trigger is a microphone grant it issues exactly the
    calls of [cleanup] on the current state, which stop the tracks of the
    held stream. *)
Theorem X16_every_teardown_stops_playback (e : Event) (s : State) :
  tears_down s e ->
  stopped (calls (step e) s) = sourcesRef s /\
  sourcesRef (exec (step e) s) = [] /\
  isSpeaking (exec (step e) s) = false /\
  status (exec (step e) s) = disconnected /\
  held_tracks (exec (step e) s) = [] /\
  sent (calls (step e) s) = [] /\
  (~ is_microphone_granted e ->
   calls (step e) s = calls cleanup s /\
   tracks_stopped (calls (step e) s) = held_tracks s).
Proof.
  intros Ht.
  destruct (teardown_shape e s Ht)
    as (s1 & E & Hso & Hi & Ho & Hr & Hse & Hst & _).
  unfold calls, exec. rewrite E. cbn [fst snd].
  destruct (cleanup_accounting s1) as (Hs1 & Ht1 & _).
  rewrite Hs1, Hso, sent_cleanup.
  repeat (split; [reflexivity|]).
  intros Hm. rewrite cleanup_run. cbn [snd].
  assert (Hst' : streamRef s1 = streamRef s).
  { destruct e; try exact Hst. exfalso. apply Hm. exact I. }
  split.
  - apply cleanup_calls_same_refs; assumption.
  - rewrite Ht1. unfold held_tracks. rewrite Hst'. reflexivity.
Qed.

End Resources.

(** ** The speaking flag during playback *)

Lemma playback_keeps_flag_in_step (p : PlaybackEvent) (s : State) :
  outputAudioCtxRef s <> None -> speaking_iff_active s ->
  outputAudioCtxRef (exec (playback p) s) <> None /\
  speaking_iff_active (exec (playback p) s).
Proof.
  split_state s. unfold speaking_iff_active.
  cbv [outputAudioCtxRef isSpeaking sourcesRef]. intros Hctx [H1 H2].
  destruct oc as [c|]; [|congruence].
  destruct p as [d|n]; cbv [playback]; act_cases;
    (split; [discriminate|]);
    try (split; [discriminate | congruence]);
    try (split; [intros _; apply Set_add_not_nil | reflexivity]);
    try (split; assumption).
  - apply length_eqb_zero in Heqb. rewrite Heqb.
    split; [discriminate | congruence].
  - assert (Hne : Set_delete n so <> []).
    { intros E. rewrite E in Heqb. discriminate Heqb. }
    assert (Hso : so <> []) by (intros E; subst so; apply Hne; reflexivity).
    split; [intros _; exact Hne | intros _; apply H2, Hso].
Qed.

(** X17. When each message is handled in one go (its decode finishes before
    the next event), playback alone keeps the speaking flag in step with the
    active set: starting from a state with a live output context in which
    the flag is on exactly when the set is non-empty, this still holds after
    any sequence of messages and node ends. *)
Theorem X17_speaking_iff_something_scheduled (ps : list PlaybackEvent)
    (s : State) :
  outputAudioCtxRef s <> None -> speaking_iff_active s ->
  speaking_iff_active (exec (playback_all ps) s) /\
  outputAudioCtxRef (exec (playback_all ps) s) <> None.
Proof.
  revert s. induction ps as [|p ps IH]; intros s Hc Hi.
  - split; assumption.
  - change (exec (playback_all (p :: ps)) s)
      with (exec (playback_all ps) (exec (playback p) s)).
    destruct (@playback_keeps_flag_in_step p s Hc Hi) as [Hc' Hi'].
    apply IH; assumption.
Qed.

(** X17, at a concrete input: one second and half a second of audio in a
    live session; the flag is off again once both nodes have ended. *)
Lemma X17_witness :
  speaking_iff_active (exec (playback_all two_chunks_played) session_open).
Proof.
  assert (Hc : outputAudioCtxRef session_open <> None)
    by (vm_compute; discriminate).
  assert (Hi : speaking_iff_active session_open).
  { split; [vm_compute; discriminate | intros H; exfalso; apply H].
    vm_compute. reflexivity. }
  exact (proj1 (@X17_speaking_iff_something_scheduled two_chunks_played
                  session_open Hc Hi)).
Defined.

(** X6, at a concrete input: a stop click in a live session closes the two
    contexts of the session. *)
Lemma X6_witness :
  contexts_closed
    (calls (step example_createPcmBlob (ClickConnection 5%nat 6%nat))
           session_open) = held_contexts session_open /\
  held_contexts
    (exec (step example_createPcmBlob (ClickConnection 5%nat 6%nat))
          session_open) = [].
Proof.
  assert (H : tears_down session_open (ClickConnection 5%nat 6%nat))
    by (vm_compute; reflexivity).
  exact (proj2 (proj2
    (@X6_audio_contexts_not_leaked example_createPcmBlob []
       (ClickConnection 5%nat 6%nat) session_open)) H).
Defined.

(** X7, at a concrete input: the microphone is granted after the channel
    closed during the permission prompt. *)
Lemma X7_witness :
  tracks_stopped
    (calls (step example_createPcmBlob
              (MicrophoneGranted {| getTracks := [3%nat; 9%nat] |} [] 7%nat))
           (exec (run example_createPcmBlob
                    [ClickConnection 1%nat 2%nat; ChannelClose]) initial))
    = [3%nat; 9%nat].
Proof.
  assert (H : status
                (exec (run example_createPcmBlob
                         [ClickConnection 1%nat 2%nat; ChannelClose])
                      initial) = disconnected)
    by (vm_compute; reflexivity).
  exact (proj1 (proj2
    (@X7_late_microphone_grant_is_stopped example_createPcmBlob
       {| getTracks := [3%nat; 9%nat] |} [] 7%nat initial
       [ClickConnection 1%nat 2%nat; ChannelClose]) H)).
Defined.

(** X16, at a concrete input: the unmount during playback. *)
Lemma X16_witness :
  stopped (calls (step example_createPcmBlob Unmount) after_one_chunk)
    = sourcesRef after_one_chunk.
Proof.
  exact (proj1
    (@X16_every_teardown_stops_playback example_createPcmBlob Unmount
       after_one_chunk I)).
Defined.

(** ** Order of [start] and [stop] in the call log *)

Lemma sfs_app (st : list AudioBufferSourceNode) (a b : list Call) :
  stops_follow_starts st (a ++ b) =
  stops_follow_starts st a && stops_follow_starts (started_after st a) b.
Proof.
  revert st. induction a as [|c a IH]; intros st; [reflexivity|].
  destruct c; cbn [app stops_follow_starts started_after]; rewrite IH;
    try reflexivity.
  apply andb_assoc.
Qed.

Lemma started_after_app (st : list AudioBufferSourceNode) (a b : list Call) :
  started_after st (a ++ b) = started_after (started_after st a) b.
Proof.
  revert st. induction a as [|c a IH]; intros st; [reflexivity|].
  destruct c; cbn [app started_after]; apply IH.
Qed.

Lemma started_after_grows (n : AudioBufferSourceNode) (cs : list Call)
    (st : list AudioBufferSourceNode) :
  Set_has n st = true -> Set_has n (started_after st cs) = true.
Proof.
  revert st. induction cs as [|c cs IH]; intros st H; [exact H|].
  destruct c; cbn [started_after]; apply IH; try exact H.
  unfold Set_has in *. cbn. rewrite H. apply orb_true_r.
Qed.

Lemma started_after_origin (n : AudioBufferSourceNode) (cs : list Call)
    (st : list AudioBufferSourceNode) :
  Set_has n (started_after st cs) = true ->
  Set_has n st = true \/ exists w, In (SourceStart n w) cs.
Proof.
  revert st. induction cs as [|c cs IH]; intros st H; [left; exact H|].
  destruct c as [h|x|tr|n0|n0 w0|x|b|b]; cbn [started_after] in H;
    try (destruct (IH _ H) as [H1 | [w Hw]];
         [left; exact H1 | right; exists w; right; exact Hw]).
  destruct (IH _ H) as [H1 | [w Hw]].
  - unfold Set_has in *. cbn in H1. destruct (Nat.eqb n n0) eqn:E.
    + apply Nat.eqb_eq in E. subst n0. right. exists w0. left. reflexivity.
    + left. exact H1.
  - right. exists w. right. exact Hw.
Qed.

Lemma sfs_stop_inside (st : list AudioBufferSourceNode) (pre post : list Call)
    (n : AudioBufferSourceNode) :
  stops_follow_starts st (pre ++ SourceStop n :: post) = true ->
  Set_has n (started_after st pre) = true.
Proof.
  rewrite sfs_app. intros H. apply andb_true_iff in H. destruct H as [_ H].
  cbn [stops_follow_starts] in H. apply andb_true_iff in H. apply H.
Qed.

Lemma sfs_map_stop (st l : list AudioBufferSourceNode) :
  (forall n, Set_has n l = true -> Set_has n st = true) ->
  stops_follow_starts st (map SourceStop l) = true /\
  started_after st (map SourceStop l) = st.
Proof.
  induction l as [|x l IH]; intros H; [split; reflexivity|].
  cbn [map stops_follow_starts started_after].
  assert (Hx : Set_has x st = true).
  { apply H. unfold Set_has. cbn. rewrite Nat.eqb_refl. reflexivity. }
  assert (Hl : forall n, Set_has n l = true -> Set_has n st = true).
  { intros n Hn. apply H. unfold Set_has in *. cbn. rewrite Hn.
    apply orb_true_r. }
  destruct (IH Hl) as [I1 I2]. rewrite Hx, I1. split; [reflexivity | exact I2].
Qed.

Lemma sfs_map_other (A : Type) (g : A -> Call) (l : list A)
    (st : list AudioBufferSourceNode) :
  (forall x, stops_follow_starts st [g x] = true /\
             started_after st [g x] = st) ->
  stops_follow_starts st (map g l) = true /\ started_after st (map g l) = st.
Proof.
  intros H. induction l as [|x l [I1 I2]]; [split; reflexivity|].
  change (map g (x :: l)) with ([g x] ++ map g l).
  rewrite sfs_app, started_after_app.
  destruct (H x) as [H1 H2]. rewrite H1, H2, I1, I2. split; reflexivity.
Qed.

Lemma sfs_cleanup (st : list AudioBufferSourceNode) (s : State) :
  (forall n, Set_has n (sourcesRef s) = true -> Set_has n st = true) ->
  stops_follow_starts st (cleanup_calls s) = true /\
  started_after st (cleanup_calls s) = st.
Proof.
  intros H. destruct (@sfs_map_stop st _ H) as [S1 S2].
  unfold cleanup_calls. rewrite !sfs_app, !started_after_app.
  assert (T : forall m : MediaStream,
             stops_follow_starts st (map TrackStop (getTracks m)) = true /\
             started_after st (map TrackStop (getTracks m)) = st).
  { intros m. apply sfs_map_other. intros x. split; reflexivity. }
  destruct (rafRef s) as [[|h]|], (sessionRef s), (streamRef s) as [m|],
    (inputAudioCtxRef s), (outputAudioCtxRef s);
    cbn [opt_calls truthy_handle stops_follow_starts started_after andb];
    rewrite ?(proj1 (T _)), ?(proj2 (T _)), ?S1, ?S2;
    cbn [stops_follow_starts started_after andb];
    rewrite ?S1, ?S2; split; reflexivity.
Qed.

Section Log.

Variable createPcmBlob : Float32Array -> Blob.

Local Abbreviation step := (step createPcmBlob).
Local Abbreviation run := (run createPcmBlob).

Lemma step_stops_follow_starts (e : Event) (s : State)
    (started : list AudioBufferSourceNode) :
  (forall n, Set_has n (sourcesRef s) = true -> Set_has n started = true) ->
  stops_follow_starts started (calls (step e) s) = true /\
  (forall n, Set_has n (sourcesRef (exec (step e) s)) = true ->
             Set_has n (started_after started (calls (step e) s)) = true).
Proof.
  intros H. split_state s. cbv [sourcesRef] in H.
  destruct (@sfs_map_stop started _ H) as [S1 S2].
  destruct e; act_cases; cbn [app]; rewrite ?app_nil_r;
    try (split; [reflexivity | exact H]);
    try (split; [apply sfs_cleanup; exact H | intros n Hn; discriminate Hn]);
    try (split; [exact S1 | intros n Hn; discriminate Hn]).
  - assert (Hadd : forall n, Set_has n (Set_add cr so) = true ->
                               Set_has n (cr :: started) = true).
    { intros n Hn. rewrite Set_has_add in Hn. unfold Set_has in *. cbn.
      destruct (Nat.eqb n cr); [reflexivity|]. cbn in Hn. apply H, Hn. }
    cbn [stops_follow_starts].
    split; [apply (@sfs_map_stop (cr :: started) _ Hadd)|].
    intros n Hn. discriminate Hn.
  - split; [reflexivity|]. intros n Hn. cbn [started_after].
    rewrite Set_has_add in Hn. unfold Set_has in *. cbn.
    destruct (Nat.eqb n cr); [reflexivity|]. cbn in Hn. apply H, Hn.
  - split; [reflexivity|]. intros n Hn. cbn [started_after].
    rewrite Set_has_delete in Hn. apply andb_true_iff in Hn. apply H, Hn.
  - split; [reflexivity|]. intros n Hn. cbn [started_after].
    rewrite Set_has_delete in Hn. apply andb_true_iff in Hn. apply H, Hn.
Qed.

Lemma run_stops_follow_starts (evs : list Event) (s : State)
    (started : list AudioBufferSourceNode) :
  (forall n, Set_has n (sourcesRef s) = true -> Set_has n started = true) ->
  stops_follow_starts started (calls (run evs) s) = true.
Proof.
  revert s started. induction evs as [|e evs IH]; intros s started H.
  - reflexivity.
  - rewrite calls_run_cons, sfs_app.
    destruct (step_stops_follow_starts e s started H) as [H1 H2].
    rewrite H1. cbn [andb]. apply IH. exact H2.
Qed.

(** X8. In the call log of every run from the mounted component, each
    [stop] on a source node comes after a [start] on that node: the
    component never stops a node it has not started. *)
Theorem X8_stop_only_after_start (evs : list Event) :
  stops_follow_starts [] (calls (run evs) initial) = true /\
  (forall pre post n,
     calls (run evs) initial = pre ++ SourceStop n :: post ->
     exists w, In (SourceStart n w) pre).
Proof.
  assert (B : stops_follow_starts [] (calls (run evs) initial) = true).
  { apply run_stops_follow_starts. intros n Hn. discriminate Hn. }
  split; [exact B|]. intros pre post n E. rewrite E in B.
  apply sfs_stop_inside in B.
  destruct (started_after_origin n pre [] B) as [H | H];
    [discriminate H | exact H].
Qed.



(** ** The start-time cursor *)

Lemma step_cursor (e : Event) (s : State) :
  (0 <= nextStartTimeRef s -> 0 <= nextStartTimeRef (exec (step e) s)) /\
  (~ carries_interruption e ->
   nextStartTimeRef s <= nextStartTimeRef (exec (step e) s)).
Proof.
  split_state s.
  destruct e; cbn [carries_interruption]; act_cases;
    try match goal with
        | b : AudioBuffer |- _ => pose proof (duration_nonneg b)
        end;
    split; intros; try lia; try congruence.
Qed.

Lemma run_cursor_nonneg (evs : list Event) (s : State) :
  0 <= nextStartTimeRef s -> 0 <= nextStartTimeRef (exec (run evs) s).
Proof.
  revert s. induction evs as [|e evs IH]; intros s H; [exact H|].
  rewrite run_cons. apply IH. apply step_cursor. exact H.
Qed.

(** X9. Whatever clock values the messages carry, the start-time cursor is
    never negative in a state reached from the mounted component, and no
    event moves it backward except a message that carries the interruption
    signal. *)
Theorem X9_cursor_moves_forward (evs : list Event) (e : Event) (s : State) :
  0 <= nextStartTimeRef (exec (run evs) initial) /\
  (~ carries_interruption e ->
   nextStartTimeRef s <= nextStartTimeRef (exec (step e) s)) /\
  (nextStartTimeRef (exec (step e) s) < nextStartTimeRef s ->
   carries_interruption e /\ nextStartTimeRef (exec (step e) s) = 0).
Proof.
  split; [apply run_cursor_nonneg; reflexivity|].
  split; [apply step_cursor|].
  split_state s.
  destruct e; cbn [carries_interruption]; act_cases;
    try match goal with
        | b : AudioBuffer |- _ => pose proof (duration_nonneg b)
        end;
    intros; try lia; split; congruence.
Qed.

(** X10. After a bare interruption, the next audio chunk is started at the
    later of zero and its arrival clock, hence at its arrival clock when
    that is not negative: the cursor left by the interrupted response does
    not delay it. *)
Theorem X10_chunk_after_interruption (m : LiveServerMessage)
    (currentTime : Time) (d : Delivery) (s : State) :
  has_audio m = false -> interrupted m = true ->
  audio_only d -> outputAudioCtxRef s <> None ->
  calls (deliver d) (exec (onmessage_begin m currentTime) s) =
    [SourceStart (created s) (Z.max 0 (arrival d))] /\
  (0 <= arrival d ->
   scheduled (calls (deliver d) (exec (onmessage_begin m currentTime) s))
     = [arrival d]) /\
  sourcesRef (exec (deliver d) (exec (onmessage_begin m currentTime) s))
    = [created s].
Proof.
  intros Ha Hi Hd Hctx.
  assert (E : exec (onmessage_begin m currentTime) s =
              setIsSpeaking false
                (set_nextStartTimeRef 0 (set_sourcesRef [] s))).
  { unfold exec, onmessage_begin. rewrite Ha. unfold bind.
    rewrite onmessage_interrupted_run by exact Hi. reflexivity. }
  rewrite E.
  assert (Hctx' : outputAudioCtxRef
                    (setIsSpeaking false
                       (set_nextStartTimeRef 0 (set_sourcesRef [] s)))
                  <> None) by (split_state s; exact Hctx).
  destruct (@deliver_audio d _ Hd Hctx') as (Hc & _ & _ & _ & Hs).
  rewrite Hc, Hs. split_state s.
  cbv [created nextStartTimeRef sourcesRef setIsSpeaking set_nextStartTimeRef
       set_sourcesRef status errorMessage isSpeaking intensity isMuted
       inputAudioCtxRef outputAudioCtxRef streamRef sessionRef isMutedRef
       rafRef analysisIsSpeaking].
  split; [reflexivity|]. split; [|reflexivity].
  intros H0. cbn [scheduled flat_map app]. rewrite Z.max_r by exact H0.
  reflexivity.
Qed.

(** ** The controls *)

(** X11. Two clicks on the mute button in a row, in a connected state
    reached from the mounted component, give back the state before them
    and call nothing; outside a connected state a click on mute changes
    nothing at all. *)
Theorem X11_mute_twice_is_identity (evs : list Event) (s : State) :
  (status (exec (run evs) initial) = connected ->
   run [ClickMute; ClickMute] (exec (run evs) initial) =
     (tt, exec (run evs) initial, []) /\
   isMutedRef (exec (step ClickMute) (exec (run evs) initial)) =
     negb (isMutedRef (exec (run evs) initial))) /\
  (status s <> connected -> step ClickMute s = (tt, s, [])).
Proof.
  split.
  - intros Hs. destruct (reachable_invariant createPcmBlob evs)
      as (_ & Hc & _ & _).
    remember (exec (run evs) initial) as r eqn:Er. clear Er.
    split_state r. cbv [status isMuted isMutedRef] in Hs, Hc. subst st mr.
    split.
    + change (run [ClickMute; ClickMute])
        with (bind (step ClickMute)
                (fun _ => bind (step ClickMute) (fun _ => ret tt))).
      act_cases; try status_contra. rewrite negb_involutive. reflexivity.
    + act_cases; try status_contra. reflexivity.
  - intros Hs. split_state s. cbv [status] in Hs.
    destruct st; try congruence; act_cases; try status_contra; reflexivity.
Qed.

Lemma step_stays_unmuted (e : Event) (s : State) :
  e <> ClickMute -> isMutedRef s = false ->
  isMutedRef (exec (step e) s) = false.
Proof.
  intros Hn. split_state s. cbv [isMutedRef].
  destruct e; try congruence; act_cases; intros H; try exact H; reflexivity.
Qed.

Lemma run_stays_unmuted (evs : list Event) (s : State) :
  Forall (fun e => e <> ClickMute) evs -> isMutedRef s = false ->
  isMutedRef (exec (run evs) s) = false.
Proof.
  intros H. revert s. induction H as [|e evs He _ IH]; intros s Hs.
  - exact Hs.
  - rewrite run_cons. apply IH. apply step_stays_unmuted; assumption.
Qed.

(** X12. Muting does not outlive a session. Every teardown turns the mute
    ref off, and it stays off through all later events up to the next click
    on mute; for a block processed in that span the capture callback
    registers a send on the session promise, and does nothing else,
    whatever the mute state was before the teardown. *)
Theorem X12_teardown_unmutes (e : Event) (s : State) (evs : list Event)
    (inputData : Float32Array) :
  tears_down s e ->
  Forall (fun e' => e' <> ClickMute) evs ->
  isMutedRef (exec (run evs) (exec (step e) s)) = false /\
  calls (step (AudioProcess inputData)) (exec (run evs) (exec (step e) s)) =
    [SessionPromiseThen (createPcmBlob inputData)].
Proof.
  intros Ht Hev.
  assert (H0 : isMutedRef (exec (step e) s) = false).
  { destruct (teardown_shape createPcmBlob e s Ht) as (s1 & E & _).
    unfold exec. rewrite E. reflexivity. }
  pose proof (run_stays_unmuted (exec (step e) s) Hev H0) as H1.
  split; [exact H1|].
  change (step (AudioProcess inputData))
    with (onaudioprocess createPcmBlob inputData).
  unfold calls. rewrite onaudioprocess_run, H1. reflexivity.
Qed.

(** X13. The main button does what its label says. Labelled
    "End Conversation", a click runs the teardown; labelled "Connecting...",
    the button is disabled and a click changes nothing; labelled
    "Start Conversation", a click moves the status to connecting, clears
    the error message, stores the two new contexts and calls nothing. *)
Theorem X13_button_label_matches_action (s : State)
    (inCtx outCtx : AudioContext) :
  (button_label s = "End Conversation"%string ->
   step (ClickConnection inCtx outCtx) s = cleanup s) /\
  (button_label s = "Connecting..."%string ->
   button_disabled s = true /\
   step (ClickConnection inCtx outCtx) s = (tt, s, [])) /\
  (button_label s = "Start Conversation"%string ->
   button_disabled s = false /\
   status (exec (step (ClickConnection inCtx outCtx)) s) = connecting /\
   errorMessage (exec (step (ClickConnection inCtx outCtx)) s) = None /\
   held_contexts (exec (step (ClickConnection inCtx outCtx)) s)
     = [inCtx; outCtx] /\
   calls (step (ClickConnection inCtx outCtx)) s = []).
Proof.
  split_state s. unfold button_label, button_disabled. cbv [status].
  destruct st; cbn [ConnectionStatus_eqb];
    (split; [|split]); intros H; try discriminate H.
  - act_cases; try status_contra. repeat split.
  - act_cases; try status_contra. repeat split.
  - act_cases; try status_contra. reflexivity.
  - act_cases; try status_contra. repeat split.
Qed.


End Log.

(** X8, at a concrete input: a barge-in during playback stops node 0 after
    it was started at time 0. *)
Lemma X8_witness :
  exists w,
    In (SourceStart 0%nat w) [SourceStart 0%nat 0].
Proof.
  refine (proj2 (@X8_stop_only_after_start example_createPcmBlob
            (session_events ++
             [ChannelMessage chunk 0; ChunkDecoded chunk one_second;
              ChannelMessage barge_in 500]))
          [SourceStart 0%nat 0] [] 0%nat _).
  vm_compute. reflexivity.
Defined.

(** X9, at a concrete input: a chunk does not carry the interruption
    signal. *)
Lemma X9_witness :
  nextStartTimeRef session_open <=
  nextStartTimeRef
    (exec (step example_createPcmBlob (ChunkDecoded chunk one_second))
          session_open).
Proof.
  refine (proj1 (proj2
    (@X9_cursor_moves_forward example_createPcmBlob []
       (ChunkDecoded chunk one_second) session_open)) _).
  cbn. discriminate.
Defined.

(** X10, at a concrete input: one second into a response the user barges
    in; the next chunk, arriving at clock 30000, starts at 30000. *)
Lemma X10_witness :
  scheduled
    (calls (deliver {| msg := chunk; arrival := 30000;
                       decoded := half_second |})
           (exec (onmessage_begin barge_in 500) after_one_chunk))
    = [30000].
Proof.
  assert (Hc : outputAudioCtxRef after_one_chunk <> None)
    by (vm_compute; discriminate).
  assert (Hd : audio_only {| msg := chunk; arrival := 30000;
                             decoded := half_second |})
    by (split; reflexivity).
  refine (proj1 (proj2
    (@X10_chunk_after_interruption barge_in 500 _ after_one_chunk
       eq_refl eq_refl Hd Hc)) _).
  cbn. discriminate.
Defined.

(** X11, at a concrete input: mute and unmute in a live session. *)
Lemma X11_witness :
  run example_createPcmBlob [ClickMute; ClickMute]
      (exec (run example_createPcmBlob session_events) initial) =
  (tt, exec (run example_createPcmBlob session_events) initial, []).
Proof.
  assert (H : status (exec (run example_createPcmBlob session_events)
                           initial) = connected)
    by (vm_compute; reflexivity).
  exact (proj1 (proj1
    (@X11_mute_twice_is_identity example_createPcmBlob session_events
       initial) H)).
Defined.

(** X12, at a concrete input: a muted session is closed by the channel; for
    a block processed afterwards a send is registered. *)
Lemma X12_witness :
  calls (step example_createPcmBlob (AudioProcess [0%Q]))
        (exec (run example_createPcmBlob [ChannelOpen])
              (exec (step example_createPcmBlob ChannelClose)
                    (exec (step example_createPcmBlob ClickMute)
                          session_open))) =
  [SessionPromiseThen (example_createPcmBlob [0%Q])].
Proof.
  refine (proj2
    (@X12_teardown_unmutes example_createPcmBlob ChannelClose
       (exec (step example_createPcmBlob ClickMute) session_open)
       [ChannelOpen] [0%Q] I _)).
  repeat constructor. discriminate.
Defined.

(** X13, at a concrete input: the button of a live session. *)
Lemma X13_witness :
  step example_createPcmBlob (ClickConnection 5%nat 6%nat) session_open
  = cleanup session_open.
Proof.
  assert (H : button_label session_open = "End Conversation"%string)
    by (vm_compute; reflexivity).
  exact (proj1
    (@X13_button_label_matches_action example_createPcmBlob session_open
       5%nat 6%nat) H).
Defined.
